(** * github_report.py: organisation / repository / collaborator report

    A shallow embedding of [src/github_report.py] and the properties of
    its fetch-and-resolve pipeline.

    The script talks to a remote API, prints progress, sleeps and writes a
    CSV file.  Every such effect is recorded, in order, in a trace; the
    remote side is an oracle that answers a request given everything that
    has happened before it.  [while True] loops take a fuel argument and
    answer [Timeout] when it runs out. *)

From Stdlib Require Import ZArith List String Ascii Bool Lia.
From stdpp Require Import base gmap strings pretty.
Import ListNotations.

Local Open Scope Z_scope.
Local Open Scope string_scope.
Local Open Scope list_scope.

(** ** Data model: the JSON documents the script reads *)

(** An element of [GET /user/orgs]; the script reads [org['login']]. *)
Record organization := { org_login : string }.

(** An element of [GET /orgs/{org}/repos]; the script reads [repo['name']]. *)
Record repository := { repo_name : string }.

(** An element of [GET /repos/{org}/{repo}/collaborators]; the script reads
    [collaborator['login']] and [collaborator['permissions']], the latter a
    [Dict[str, bool]]. *)
Record collaborator := {
  collab_login : string;
  collab_permissions : gmap string bool
}.

(** [GET /users/{username}]: [user_data.get('email')] is [None] when the
    key is missing or null. *)
Record user := { user_email : option string }.

(** A commit of a push event: ['author'] may be missing, and so may the
    author's ['email']. *)
Record author := { author_email : option string }.
Record commit := { commit_author : option author }.

(** The payload of an event: [payload.get('commits', [])]. *)
Record payload := { payload_commits : option (list commit) }.

(** An element of [GET /users/{username}/events/public]: [event['type']]
    is always there, ['payload'] may be missing. *)
Record gh_event := {
  event_type : string;
  event_payload : option payload
}.

(** The body of a response, as [response.json()] reads it: one of the
    documents above, an error document with a message, or a body that is
    not JSON (an HTML error page, an empty body), on which
    [response.json()] raises.  The script calls [response.json()] on the
    success paths and, in [get_organizations] and the two listings, also
    inside the branch for a status other than 200. *)
Inductive json :=
| JOrgs (orgs : list organization)
| JRepos (repos : list repository)
| JCollaborators (collaborators : list collaborator)
| JUser (user_data : user)
| JEvents (events : list gh_event)
| JMessage (message : string)
| NotJson (text : string).

(** ** Requests, responses and the trace of effects *)

(** A value of the [params] dictionary. *)
Inductive param :=
| PInt (n : Z)
| PStr (s : string).

Record request := {
  req_url : string;
  req_headers : list (string * string);
  req_params : list (string * param)
}.

(** [response.headers] is case-insensitive: it is kept here as a map from
    the lower-cased header name. *)
Record response := {
  status_code : Z;
  resp_json : json;
  resp_headers : gmap string string
}.

Inductive effect :=
| EGet (rq : request) (rs : response)     (* requests.get *)
| EPrint (line : string)                  (* print(f"...") *)
| EPrintJson (body : json)                (* print(response.json()) *)
| ESleep (seconds : Z)                    (* time.sleep *)
| EOpen (path : string)                   (* open(path, 'w', ...) *)
| EWriteRow (row : list string)           (* csv_writer.writerow *)
| EClose (path : string).                 (* leaving the with block *)

Definition trace := list effect.

(** The remote side: the answer to a request may depend on all that
    happened before it. *)
Definition oracle := trace -> request -> response.

(** ** Outcomes and the monad of the script *)

Inductive exn :=
| TypeError         (* the body of a 200 response has another shape *)
| ValueError        (* int() of something that is not a number *)
| JSONDecodeError.  (* response.json() on a body that is not JSON *)

Inductive outcome (A : Type) :=
| Ok (a : A)
| Raise (e : exn)
| Timeout.
Arguments Ok {A} a.
Arguments Raise {A} e.
Arguments Timeout {A}.

(** A computation is run after a history and yields an outcome together
    with the effects it performed itself, oldest first. *)
Definition M (A : Type) := trace -> outcome A * trace.

Definition ret {A} (a : A) : M A := fun _ => (Ok a, []).

Definition bind {A B} (m : M A) (f : A -> M B) : M B :=
  fun t =>
    match m t with
    | (Ok a, o1) => let (r, o2) := f a (t ++ o1) in (r, o1 ++ o2)
    | (Raise e, o1) => (Raise e, o1)
    | (Timeout, o1) => (Timeout, o1)
    end.

Definition raise {A} (e : exn) : M A := fun _ => (Raise e, []).
Definition timeout {A} : M A := fun _ => (Timeout, []).
Definition emit (e : effect) : M unit := fun _ => (Ok tt, [e]).
Definition lift {A} (r : outcome A) : M A := fun _ => (r, []).

Notation "'let*' x ':=' m 'in' k" := (bind m (fun x => k))
  (at level 10, x name, m at level 100, k at level 200).
Notation "m ;; k" := (bind m (fun _ => k))
  (at level 100, k at level 200, right associativity).

Definition print (line : string) : M unit := emit (EPrint line).

(** [print(response.json())]: [response.json()] raises on a body that is
    not JSON, before anything is printed. *)
Definition print_json (body : json) : M unit :=
  match body with
  | NotJson _ => raise JSONDecodeError
  | _ => emit (EPrintJson body)
  end.
Definition sleep (seconds : Z) : M unit := emit (ESleep seconds).

(** ** Python built-ins used by the script *)

Definition is_empty {A} (l : list A) : bool :=
  match l with [] => true | _ => false end.

(** Truth value of an optional string: [None] and [''] are false. *)
Definition truthy (email : option string) : bool :=
  match email with
  | Some (String _ _) => true
  | _ => false
  end.

(** [s.endswith(suffix)] *)
Definition endswith (s suffix : string) : bool :=
  let n := String.length s in
  let m := String.length suffix in
  (m <=? n)%nat && String.eqb (substring (n - m) m s) suffix.

(** [', '.join(names)] *)
Fixpoint join (sep : string) (names : list string) : string :=
  match names with
  | [] => ""
  | [x] => x
  | x :: rest => x +:+ sep +:+ join sep rest
  end.

Definition ascii_lower (c : ascii) : ascii :=
  let n := nat_of_ascii c in
  if ((65 <=? n) && (n <=? 90))%nat then ascii_of_nat (n + 32) else c.

Fixpoint lower (s : string) : string :=
  match s with
  | EmptyString => EmptyString
  | String c rest => String (ascii_lower c) (lower rest)
  end.

(** [name in response.headers] and [response.headers[name]] at once. *)
Definition header (name : string) (rs : response) : option string :=
  resp_headers rs !! lower name.

Definition is_space (c : ascii) : bool :=
  match nat_of_ascii c with
  | 9%nat | 10%nat | 11%nat | 12%nat | 13%nat | 32%nat
  | 133%nat | 160%nat => true
  | _ => false
  end.

Fixpoint lstrip (s : string) : string :=
  match s with
  | String c rest => if is_space c then lstrip rest else s
  | EmptyString => EmptyString
  end.

Fixpoint rstrip (s : string) : string :=
  match s with
  | EmptyString => EmptyString
  | String c rest =>
      match rstrip rest with
      | EmptyString => if is_space c then EmptyString else String c EmptyString
      | rest' => String c rest'
      end
  end.

Definition digit (c : ascii) : option Z :=
  let n := nat_of_ascii c in
  if ((48 <=? n) && (n <=? 57))%nat then Some (Z.of_nat (n - 48)) else None.

(** Digits with single underscores between them, as [int()] reads them;
    [acc] is [None] until a first digit is seen. *)
Fixpoint digits (s : string) (acc : option Z) (after_digit : bool) : option Z :=
  match s with
  | EmptyString => if after_digit then acc else None
  | String c rest =>
      match digit c with
      | Some d => digits rest (Some (10 * default 0 acc + d)) true
      | None =>
          if (Ascii.eqb c "_" && after_digit)%bool
          then digits rest acc false
          else None
      end
  end.

(** [int(s)] on a string: surrounding white space, an optional sign,
    decimal digits.  The characters of a header value are the Latin-1
    code points [requests] decodes them to; white space is the ASCII
    white space and the code points 0x85 and 0xA0.  The limit recent
    interpreters put on the number of digits is not modelled. *)
Definition py_int (s : string) : outcome Z :=
  let body := rstrip (lstrip s) in
  let (negative, ds) :=
    match body with
    | String "-" rest => (true, rest)
    | String "+" rest => (false, rest)
    | _ => (false, body)
    end in
  match digits ds None false with
  | Some n => Ok (if negative : bool then - n else n)
  | None => Raise ValueError
  end.

(** [response.json()] on a 200 response, read at the shape the caller
    goes on to use.  A body that is not JSON raises in [response.json()].
    What the script does with a JSON document of another shape depends on
    that shape (it may go on with the keys of a dictionary); this model
    stops there with TypeError, and the statements below that give the
    result of a fetch assume bodies of the shape it expects. *)
Definition as_orgs (j : json) : outcome (list organization) :=
  match j with
  | JOrgs l => Ok l
  | NotJson _ => Raise JSONDecodeError
  | _ => Raise TypeError
  end.
Definition as_repos (j : json) : outcome (list repository) :=
  match j with
  | JRepos l => Ok l
  | NotJson _ => Raise JSONDecodeError
  | _ => Raise TypeError
  end.
Definition as_collaborators (j : json) : outcome (list collaborator) :=
  match j with
  | JCollaborators l => Ok l
  | NotJson _ => Raise JSONDecodeError
  | _ => Raise TypeError
  end.
Definition as_user (j : json) : outcome user :=
  match j with
  | JUser u => Ok u
  | NotJson _ => Raise JSONDecodeError
  | _ => Raise TypeError
  end.
Definition as_events (j : json) : outcome (list gh_event) :=
  match j with
  | JEvents l => Ok l
  | NotJson _ => Raise JSONDecodeError
  | _ => Raise TypeError
  end.

(** ** get_headers *)

Definition get_headers (token : string) : list (string * string) :=
  [ ("Authorization", "token " +:+ token);
    ("Accept", "application/vnd.github.v3+json") ].

(** ** get_permission_level *)

Definition flag (permissions : gmap string bool) (name : string) : bool :=
  default false (permissions !! name).   (* permissions.get(name, False) *)

Definition get_permission_level (permissions : gmap string bool) : string :=
  if flag permissions "admin" then "Admin"
  else if flag permissions "maintain" then "Maintain"
  else if flag permissions "push" then "Write"
  else if flag permissions "triage" then "Triage"
  else if flag permissions "pull" then "Read"
  else "Unknown".

(** ** The functions that talk to the API *)

Section Script.

Variable net : oracle.

(** [requests.get(url, headers=..., params=...)] *)
Definition requests_get (url : string) (headers : list (string * string))
    (params : list (string * param)) : M response :=
  fun t =>
    let rq := {| req_url := url; req_headers := headers; req_params := params |} in
    let rs := net t rq in
    (Ok rs, [EGet rq rs]).

(** *** get_organizations *)

Definition get_organizations (token : string) : M (list organization) :=
  let headers := get_headers token in
  let* response := requests_get "https://api.github.com/user/orgs" headers [] in
  if negb (status_code response =? 200)%Z then
    print ("Error fetching organizations: " +:+ pretty (status_code response));;
    print_json (resp_json response);;
    ret []
  else
    lift (as_orgs (resp_json response)).

(** The rate-limit lines that close both pagination loops:
    [if 'X-RateLimit-Remaining' in response.headers and
        int(response.headers['X-RateLimit-Remaining']) < 10: ...] *)
Definition rate_limit_pause (response : response) : M unit :=
  match header "X-RateLimit-Remaining" response with
  | Some remaining =>
      let* n := lift (py_int remaining) in
      if (n <? 10)%Z then
        print "Rate limit approaching, sleeping for a minute...";;
        sleep 60
      else ret tt
  | None => ret tt
  end.

(** *** get_repos_for_org *)

(** The [while True] loop, one request per unit of fuel, with the values
    of [all_repos] and [page] at its head. *)
Fixpoint get_repos_for_org_loop (fuel : nat) (org_name : string)
    (headers : list (string * string)) (all_repos : list repository)
    (page : Z) : M (list repository) :=
  match fuel with
  | O => timeout
  | S fuel' =>
      let* response :=
        requests_get ("https://api.github.com/orgs/" +:+ org_name +:+ "/repos")
          headers [("per_page", PInt 100); ("page", PInt page)] in
      if negb (status_code response =? 200)%Z then
        print ("Error fetching repositories for " +:+ org_name +:+ ": "
               +:+ pretty (status_code response));;
        print_json (resp_json response);;
        ret all_repos
      else
        let* repos := lift (as_repos (resp_json response)) in
        if is_empty repos then ret all_repos
        else
          let all_repos := all_repos ++ repos in
          let page := page + 1 in
          rate_limit_pause response;;
          get_repos_for_org_loop fuel' org_name headers all_repos page
  end.

Definition get_repos_for_org (fuel : nat) (org_name token : string)
    : M (list repository) :=
  let headers := get_headers token in
  get_repos_for_org_loop fuel org_name headers [] 1.

(** *** get_collaborators_for_repo *)

Fixpoint get_collaborators_for_repo_loop (fuel : nat) (org_name repo_name : string)
    (headers : list (string * string)) (all_collaborators : list collaborator)
    (page : Z) : M (list collaborator) :=
  match fuel with
  | O => timeout
  | S fuel' =>
      let* response :=
        requests_get
          ("https://api.github.com/repos/" +:+ org_name +:+ "/" +:+ repo_name
           +:+ "/collaborators")
          headers
          [("per_page", PInt 100); ("page", PInt page); ("affiliation", PStr "all")] in
      if negb (status_code response =? 200)%Z then
        print ("Error fetching collaborators for " +:+ org_name +:+ "/"
               +:+ repo_name +:+ ": " +:+ pretty (status_code response));;
        print_json (resp_json response);;
        ret all_collaborators
      else
        let* collaborators := lift (as_collaborators (resp_json response)) in
        if is_empty collaborators then ret all_collaborators
        else
          let all_collaborators := all_collaborators ++ collaborators in
          let page := page + 1 in
          rate_limit_pause response;;
          get_collaborators_for_repo_loop fuel' org_name repo_name headers
            all_collaborators page
  end.

Definition get_collaborators_for_repo (fuel : nat)
    (org_name repo_name token : string) : M (list collaborator) :=
  let headers := get_headers token in
  get_collaborators_for_repo_loop fuel org_name repo_name headers [] 1.

(** *** get_user_email *)

(** The two nested [for] loops over events and commits either leave
    through [return email] or run to their end with the local variable
    [email] as they left it. *)
Inductive scan :=
| Return (email : string)
| Fallthrough (email : option string).

Fixpoint scan_commits (commits : list commit) (email : option string) : scan :=
  match commits with
  | [] => Fallthrough email
  | commit :: rest =>
      match commit_author commit with
      | Some author =>
          (* 'author' in commit and commit['author'].get('email') *)
          if truthy (author_email author) then
            let email := author_email author in
            match email with
            | Some address =>
                if negb (endswith address "noreply.github.com")
                then Return address
                else scan_commits rest email
            | None => scan_commits rest email
            end
          else scan_commits rest email
      | None => scan_commits rest email
      end
  end.

Fixpoint scan_events (events : list gh_event) (email : option string) : scan :=
  match events with
  | [] => Fallthrough email
  | event :: rest =>
      if String.eqb (event_type event) "PushEvent" then
        match event_payload event with
        | Some payload =>
            let commits := default [] (payload_commits payload) in
            match scan_commits commits email with
            | Return address => Return address
            | Fallthrough email => scan_events rest email
            end
        | None => scan_events rest email
        end
      else scan_events rest email
  end.

(** [email if email else "Not available"] *)
Definition email_or_not_available (email : option string) : string :=
  match email with
  | Some address => if truthy email then address else "Not available"
  | None => "Not available"
  end.

Definition get_user_email (username token : string) : M string :=
  let headers := get_headers token in
  let* response :=
    requests_get ("https://api.github.com/users/" +:+ username) headers [] in
  if negb (status_code response =? 200)%Z then ret "Not available"
  else
    let* user_data := lift (as_user (resp_json response)) in
    let email := user_email user_data in
    let* scanned :=
      if negb (truthy email) then
        let* events_response :=
          requests_get
            ("https://api.github.com/users/" +:+ username +:+ "/events/public")
            headers [] in
        if (status_code events_response =? 200)%Z then
          let* events := lift (as_events (resp_json events_response)) in
          ret (scan_events events email)
        else ret (Fallthrough email)
      else ret (Fallthrough email) in
    match scanned with
    | Return address => ret address
    | Fallthrough email => ret (email_or_not_available email)
    end.

(** *** generate_report *)

(** [for x in xs: body] *)
Fixpoint for_each {A} (xs : list A) (body : A -> M unit) : M unit :=
  match xs with
  | [] => ret tt
  | x :: rest => body x;; for_each rest body
  end.

(** [with open(path, 'w', ...) as f: body]; the file is closed however the
    body ends. *)
Definition with_open {A} (path : string) (body : M A) : M A :=
  fun t =>
    let (r, o) := body (t ++ [EOpen path]) in
    match r with
    | Timeout => (r, EOpen path :: o)
    | _ => (r, EOpen path :: o ++ [EClose path])
    end.

Definition writerow (row : list string) : M unit := emit (EWriteRow row).

Definition header_row : list string :=
  ["Organization"; "Repo Name"; "User Name"; "Email"; "Permission"].

Definition generate_report (fuel : nat) (org_names : list string)
    (output_file token : string) : M unit :=
  with_open output_file (
    writerow header_row;;
    let* org_names :=
      if is_empty org_names then
        let* orgs := get_organizations token in
        let org_names := map org_login orgs in
        print ("Found " +:+ pretty (length org_names) +:+ " organizations: "
               +:+ join ", " org_names);;
        ret org_names
      else ret org_names in
    for_each org_names (fun org_name =>
      print ("Processing organization: " +:+ org_name);;
      let* repos := get_repos_for_org fuel org_name token in
      print ("Found " +:+ pretty (length repos) +:+ " repositories in "
             +:+ org_name);;
      for_each repos (fun repo =>
        let repo_name := repo_name repo in
        print ("  Processing repository: " +:+ repo_name);;
        let* collaborators :=
          get_collaborators_for_repo fuel org_name repo_name token in
        for_each collaborators (fun collaborator =>
          let username := collab_login collaborator in
          let* email := get_user_email username token in
          let permission :=
            get_permission_level (collab_permissions collaborator) in
          writerow [org_name; repo_name; username; email; permission]);;
        print ("  Added " +:+ pretty (length collaborators)
               +:+ " collaborators for " +:+ repo_name))));;
  print ("Report generated successfully: " +:+ output_file).

End Script.


(** * Vocabulary of the statements *)



(** The requests the script issues. *)
Definition orgs_request (token : string) : request :=
  {| req_url := "https://api.github.com/user/orgs";
     req_headers := get_headers token;
     req_params := [] |}.

Definition repos_request (org_name token : string) (page : Z) : request :=
  {| req_url := "https://api.github.com/orgs/" +:+ org_name +:+ "/repos";
     req_headers := get_headers token;
     req_params := [("per_page", PInt 100); ("page", PInt page)] |}.

Definition collaborators_request (org_name repo_name token : string)
    (page : Z) : request :=
  {| req_url := "https://api.github.com/repos/" +:+ org_name +:+ "/"
                +:+ repo_name +:+ "/collaborators";
     req_headers := get_headers token;
     req_params := [("per_page", PInt 100); ("page", PInt page);
                    ("affiliation", PStr "all")] |}.

Definition profile_request (username token : string) : request :=
  {| req_url := "https://api.github.com/users/" +:+ username;
     req_headers := get_headers token;
     req_params := [] |}.

Definition events_request (username token : string) : request :=
  {| req_url := "https://api.github.com/users/" +:+ username +:+ "/events/public";
     req_headers := get_headers token;
     req_params := [] |}.

(** The requests of a trace, in the order they were issued. *)
Fixpoint requests_of (o : trace) : list request :=
  match o with
  | [] => []
  | EGet rq _ :: rest => rq :: requests_of rest
  | _ :: rest => requests_of rest
  end.

(** The rows a trace leaves in the output file: opening it in mode ['w']
    empties it, [writerow] appends. *)
Fixpoint rows_from (rows : list (list string)) (o : trace) : list (list string) :=
  match o with
  | [] => rows
  | EOpen _ :: rest => rows_from [] rest
  | EWriteRow row :: rest => rows_from (rows ++ [row]) rest
  | _ :: rest => rows_from rows rest
  end.

Definition file_rows (o : trace) : list (list string) := rows_from [] o.

(** The addresses the timeline scan looks at: the non-empty author emails
    of the commits of push events that have a payload, in timeline order. *)
Definition commit_addresses (commits : list commit) : list string :=
  flat_map (fun commit =>
    match commit_author commit with
    | Some {| author_email := Some (String c rest) |} => [String c rest]
    | _ => []
    end) commits.

Definition timeline_addresses (events : list gh_event) : list string :=
  flat_map (fun event =>
    if String.eqb (event_type event) "PushEvent" then
      match event_payload event with
      | Some payload => commit_addresses (default [] (payload_commits payload))
      | None => []
      end
    else []) events.

(** The masked-address pattern. *)
Definition masked (address : string) : bool :=
  endswith address "noreply.github.com".

(** An oracle that answers a request the same way whatever came before. *)
Definition stateless (server : request -> response) : oracle :=
  fun _ rq => server rq.

(** * A sample deployment, to run the script on *)

Definition ok (body : json) : response :=
  {| status_code := 200; resp_json := body; resp_headers := ∅ |}.

Definition ok_remaining (body : json) (remaining : string) : response :=
  {| status_code := 200; resp_json := body;
     resp_headers := {[ "x-ratelimit-remaining" := remaining ]} |}.

Definition failure (status : Z) (message : string) : response :=
  {| status_code := status; resp_json := JMessage message; resp_headers := ∅ |}.

(** The value of the [page] parameter of a request, 1 when there is none. *)
Fixpoint page_param (params : list (string * param)) : Z :=
  match params with
  | [] => 1
  | (name, PInt n) :: rest => if String.eqb name "page" then n else page_param rest
  | _ :: rest => page_param rest
  end.

(** The given page of a collection served 100 items at a time. *)
Definition page_slice {A} (items : list A) (page : Z) : list A :=
  firstn 100 (skipn (100 * (Z.to_nat page - 1)) items).

Definition repo (name : string) : repository := {| repo_name := name |}.

Definition member (login : string) (flags : list string) : collaborator :=
  {| collab_login := login;
     collab_permissions := list_to_map (map (fun f => (f, true)) flags) |}.

Definition push_event (addresses : list string) : gh_event :=
  {| event_type := "PushEvent";
     event_payload := Some {| payload_commits := Some
       (map (fun a => {| commit_author := Some {| author_email := Some a |} |})
            addresses) |} |}.

Definition watch_event : gh_event :=
  {| event_type := "WatchEvent"; event_payload := Some {| payload_commits := None |} |}.

(** 250 repositories named 0 .. 249. *)
Definition big_collection : list repository :=
  map (fun i => repo (pretty i)) (seq 0 250).

(** Organisations acme (two repositories), corp (one), big (250), busy
    (two pages with rate-limit counters 9 and 10); any other
    organisation, such as broken, is answered 403.  alice publishes her
    email; bob's timeline has a masked and then a plain address; carol's
    has masked addresses only; any other user is answered 404. *)
Definition demo_server (rq : request) : response :=
  let url := req_url rq in
  let page := page_param (req_params rq) in
  if String.eqb url "https://api.github.com/user/orgs" then
    ok (JOrgs [ {| org_login := "acme" |}; {| org_login := "corp" |} ])
  else if String.eqb url "https://api.github.com/orgs/acme/repos" then
    ok (JRepos (page_slice [repo "widgets"; repo "gadgets"] page))
  else if String.eqb url "https://api.github.com/orgs/corp/repos" then
    ok (JRepos (page_slice [repo "tools"] page))
  else if String.eqb url "https://api.github.com/orgs/big/repos" then
    ok (JRepos (page_slice big_collection page))
  else if String.eqb url "https://api.github.com/orgs/busy/repos" then
    if (page =? 1)%Z then ok_remaining (JRepos [repo "one"]) "9"
    else if (page =? 2)%Z then ok_remaining (JRepos [repo "two"]) "10"
    else ok (JRepos [])
  else if String.eqb url "https://api.github.com/repos/busy/one/collaborators" then
    if (page =? 1)%Z then ok_remaining (JCollaborators [member "frank" ["pull"]]) "3"
    else if (page =? 2)%Z then ok_remaining (JCollaborators [member "grace" ["push"]]) "4999"
    else ok (JCollaborators [])
  else if String.eqb url "https://api.github.com/repos/acme/widgets/collaborators" then
    ok (JCollaborators
          (page_slice [member "alice" ["push"; "pull"]; member "bob" ["pull"]] page))
  else if String.eqb url "https://api.github.com/repos/acme/gadgets/collaborators" then
    ok (JCollaborators (page_slice [member "carol" ["admin"; "push"; "pull"]] page))
  else if String.eqb url "https://api.github.com/repos/corp/tools/collaborators" then
    ok (JCollaborators (page_slice [member "dave" ["triage"; "pull"]] page))
  else if String.eqb url "https://api.github.com/users/alice" then
    ok (JUser {| user_email := Some "alice@example.com" |})
  else if String.eqb url "https://api.github.com/users/bob" then
    ok (JUser {| user_email := None |})
  else if String.eqb url "https://api.github.com/users/bob/events/public" then
    ok (JEvents [ watch_event;
                  push_event ["41898282+bob@users.noreply.github.com"];
                  push_event ["bob@example.com"; "robert@example.org"] ])
  else if String.eqb url "https://api.github.com/users/carol" then
    ok (JUser {| user_email := None |})
  else if String.eqb url "https://api.github.com/users/carol/events/public" then
    ok (JEvents [ push_event ["1234+carol@users.noreply.github.com"] ])
  else if String.eqb url "https://api.github.com/users/erin" then
    ok (JUser {| user_email := Some "" |})
  else if String.eqb url "https://api.github.com/users/erin/events/public" then
    ok (JEvents [ watch_event ])
  else if String.eqb url "https://api.github.com/orgs/broken/repos" then
    failure 403 "Must have admin rights to Repository."
  else failure 404 "Not Found".

Definition demo : oracle := stateless demo_server.

(** A body that is JSON. *)
Definition is_json (body : json) : Prop :=
  match body with NotJson _ => False | _ => True end.

(** * The pagination loop, once *)

(** The two loops of the script differ in the request they issue, in the
    shape they expect and in the line they print on failure, and in
    nothing else.  [paginate] is their common form; the lemmas
    [get_repos_for_org_loop_paginate] and
    [get_collaborators_for_repo_loop_paginate] below show that each loop
    is an instance of it, and the properties of pagination are proved
    once, on [paginate]. *)
Section Paginate.

Context {A : Type}.
Variable net : oracle.
Variable request_for : Z -> request.
Variable decode : json -> outcome (list A).
Variable error_line : Z -> string.

Fixpoint paginate (fuel : nat) (all : list A) (page : Z) : M (list A) :=
  match fuel with
  | O => timeout
  | S fuel' =>
      fun t =>
        let rq := request_for page in
        let response := net t rq in
        if negb (status_code response =? 200)%Z then
          match resp_json response with
          | NotJson _ =>
              (Raise JSONDecodeError,
               [EGet rq response; EPrint (error_line (status_code response))])
          | body =>
              (Ok all, [EGet rq response;
                        EPrint (error_line (status_code response));
                        EPrintJson body])
          end
        else
          match decode (resp_json response) with
          | Ok items =>
              if is_empty items then (Ok all, [EGet rq response])
              else
                match rate_limit_pause response (t ++ [EGet rq response]) with
                | (Ok _, pause) =>
                    let (r, o) :=
                      paginate fuel' (all ++ items) (page + 1)
                        (t ++ EGet rq response :: pause) in
                    (r, EGet rq response :: pause ++ o)
                | (Raise e, pause) => (Raise e, EGet rq response :: pause)
                | (Timeout, pause) => (Timeout, EGet rq response :: pause)
                end
          | Raise e => (Raise e, [EGet rq response])
          | Timeout => (Timeout, [EGet rq response])
          end
  end.

End Paginate.

(** The effects of one turn of a pagination loop on a page that has
    items: the request, and the pause the script takes after it. *)
Definition turn_effects (rq : request) (rs : response) : trace :=
  EGet rq rs :: snd (rate_limit_pause rs []).

(** The effects of the turns on the given pages, the first of them being
    page number [page]. *)
Fixpoint pages_effects (request_for : Z -> request) (page : Z)
    (pages : list response) : trace :=
  match pages with
  | [] => []
  | rs :: rest =>
      turn_effects (request_for page) rs
      ++ pages_effects request_for (page + 1) rest
  end.

(** After the history [t], the remote side answers the requests for page
    [page], [page + 1], ... with [pages] and then with [final], the
    script pausing between them as it does. *)
Fixpoint serves (net : oracle) (request_for : Z -> request) (t : trace)
    (page : Z) (pages : list response) (final : response) : Prop :=
  match pages with
  | [] => net t (request_for page) = final
  | rs :: rest =>
      net t (request_for page) = rs
      /\ serves net request_for (t ++ turn_effects (request_for page) rs)
           (page + 1) rest final
  end.

(** A page the loop goes on after: status 200, a non-empty list of items
    of the expected shape, and a rate-limit header that is absent or a
    number. *)
Definition full_page {A} (decode : json -> outcome (list A))
    (rs : response) (items : list A) : Prop :=
  status_code rs = 200
  /\ decode (resp_json rs) = Ok items
  /\ items <> []
  /\ fst (rate_limit_pause rs []) = Ok tt.

(** A page the loop ends on without complaint: status 200 and no item. *)
Definition empty_page {A} (decode : json -> outcome (list A))
    (rs : response) : Prop :=
  status_code rs = 200 /\ decode (resp_json rs) = Ok [].

(** The page numbers 1 .. n. *)
Definition page_numbers (n : nat) : list Z := map Z.of_nat (seq 1 n).

(** The lines the loops print on a failure. *)
Definition repos_error_line (org_name : string) (status : Z) : string :=
  "Error fetching repositories for " +:+ org_name +:+ ": " +:+ pretty status.

Definition collaborators_error_line (org_name repo_name : string) (status : Z)
    : string :=
  "Error fetching collaborators for " +:+ org_name +:+ "/" +:+ repo_name
  +:+ ": " +:+ pretty status.

(** What the loop does on the page it ends on: the request, and on a
    status other than 200 the two printed lines. *)
Definition final_effects (error_line : Z -> string) (rq : request)
    (final : response) : trace :=
  EGet rq final ::
  (if (status_code final =? 200)%Z then []
   else EPrint (error_line (status_code final))
        :: match resp_json final with
           | NotJson _ => []
           | body => [EPrintJson body]
           end).

(** * The report, block by block *)

(** The bodies of the three nested [for] loops of [generate_report], each
    under a name; [generate_report_blocks] below shows that the function is
    made of them. *)
Section Blocks.

Variable net : oracle.

Definition collaborator_block (org_name repo_name token : string)
    (collaborator : collaborator) : M unit :=
  let username := collab_login collaborator in
  let* email := get_user_email net username token in
  let permission := get_permission_level (collab_permissions collaborator) in
  writerow [org_name; repo_name; username; email; permission].

Definition repo_block (fuel : nat) (org_name token : string)
    (repo : repository) : M unit :=
  let repo_name := repo_name repo in
  print ("  Processing repository: " +:+ repo_name);;
  let* collaborators :=
    get_collaborators_for_repo net fuel org_name repo_name token in
  for_each collaborators (collaborator_block org_name repo_name token);;
  print ("  Added " +:+ pretty (length collaborators)
         +:+ " collaborators for " +:+ repo_name).

Definition org_block (fuel : nat) (token org_name : string) : M unit :=
  print ("Processing organization: " +:+ org_name);;
  let* repos := get_repos_for_org net fuel org_name token in
  print ("Found " +:+ pretty (length repos) +:+ " repositories in "
         +:+ org_name);;
  for_each repos (repo_block fuel org_name token).

(** The organisations of the run: those given, or those listed. *)
Definition resolve_org_names (org_names : list string) (token : string)
    : M (list string) :=
  if is_empty org_names then
    let* orgs := get_organizations net token in
    let org_names := map org_login orgs in
    print ("Found " +:+ pretty (length org_names) +:+ " organizations: "
           +:+ join ", " org_names);;
    ret org_names
  else ret org_names.

End Blocks.

(** The effects of a fetch: requests, printed lines and sleeps; nothing
    that touches the output file. *)
Fixpoint file_untouched (o : trace) : bool :=
  match o with
  | [] => true
  | (EOpen _ | EWriteRow _ | EClose _) :: _ => false
  | _ :: rest => file_untouched rest
  end.

(** A computation that succeeds after [t] and appends exactly the rows
    [expected] to the file. *)
Definition writes (m : M unit) (t : trace) (expected : list (list string))
    : Prop :=
  exists o, m t = (Ok tt, o)
            /\ forall rows, rows_from rows o = rows ++ expected.

(** The value of an outcome, [d] when there is none. *)
Definition value {A} (d : A) (r : outcome A) : A :=
  match r with Ok a => a | _ => d end.

(** ** What the enumeration produces on a stateless server *)

Section Enumeration.

Variable server : request -> response.
Variable fuel : nat.
Variable token : string.

Definition listed_orgs : outcome (list organization) :=
  fst (get_organizations (stateless server) token []).

Definition listed_repos (org_name : string) : outcome (list repository) :=
  fst (get_repos_for_org (stateless server) fuel org_name token []).

Definition listed_collaborators (org_name repo_name : string)
    : outcome (list collaborator) :=
  fst (get_collaborators_for_repo (stateless server) fuel org_name repo_name
         token []).

Definition resolved_email (username : string) : outcome string :=
  fst (get_user_email (stateless server) username token []).

(** The row of one (organization, repository, collaborator) tuple. *)
Definition report_row (org_name repo_name : string) (c : collaborator)
    : list string :=
  [ org_name; repo_name; collab_login c;
    value "" (resolved_email (collab_login c));
    get_permission_level (collab_permissions c) ].

(** The rows of the report in nesting order: per organization, per
    repository in listing order, per collaborator in listing order. *)
Definition repo_rows (org_name : string) (repo : repository)
    : list (list string) :=
  map (report_row org_name (repo_name repo))
      (value [] (listed_collaborators org_name (repo_name repo))).

Definition org_rows (org_name : string) : list (list string) :=
  flat_map (repo_rows org_name) (value [] (listed_repos org_name)).

Definition report_rows (org_names : list string) : list (list string) :=
  flat_map org_rows org_names.

(** Every listing and every email lookup the report needs gives a value
    (no exception, no loop that outlasts the fuel). *)
Definition repo_enumerable (org_name : string) (repo : repository) : Prop :=
  exists collaborators,
    listed_collaborators org_name (repo_name repo) = Ok collaborators
    /\ Forall (fun c => exists email,
                 resolved_email (collab_login c) = Ok email) collaborators.

Definition org_enumerable (org_name : string) : Prop :=
  exists repos,
    listed_repos org_name = Ok repos
    /\ Forall (repo_enumerable org_name) repos.

Definition enumerable (org_names : list string) : Prop :=
  Forall org_enumerable org_names.

End Enumeration.

(** The organisations of a run on a stateless server: those given, or,
    when none is given, those the membership listing returns. *)
Definition resolved_org_names (server : request -> response) (token : string)
    (org_names : list string) : list string :=
  if is_empty org_names
  then map org_login (value [] (listed_orgs server token))
  else org_names.

(** A server that rejects the credential on every request. *)
Definition locked_out : oracle :=
  stateless (fun _ => failure 401 "Bad credentials").

(** * Invariants of the effects *)

(** Every effect a computation performs satisfies [Q], whatever the
    history it is run after and however it ends. *)
Definition emits {A} (Q : effect -> Prop) (m : M A) : Prop :=
  forall t, Forall Q (snd (m t)).

(** The requests the script is written to issue with a given token: the
    membership listing, and the four requests about an organisation, a
    repository or a user. *)
Definition data_request (token : string) (rq : request) : Prop :=
  (exists org_name page, 1 <= page /\ rq = repos_request org_name token page)
  \/ (exists org_name repo_name page,
         1 <= page /\ rq = collaborators_request org_name repo_name token page)
  \/ (exists username, rq = profile_request username token)
  \/ (exists username, rq = events_request username token).

Definition api_request (token : string) (rq : request) : Prop :=
  rq = orgs_request token \/ data_request token rq.

(** The rows written in a trace, whatever file they went to. *)
Fixpoint rows_written (o : trace) : list (list string) :=
  match o with
  | [] => []
  | EWriteRow row :: rest => row :: rows_written rest
  | _ :: rest => rows_written rest
  end.

(** The seconds slept in a trace, sleep by sleep. *)
Fixpoint sleeps (o : trace) : list Z :=
  match o with
  | [] => []
  | ESleep seconds :: rest => seconds :: sleeps rest
  | _ :: rest => sleeps rest
  end.

(** The files opened and closed in a trace. *)
Fixpoint files_touched (o : trace) : list string :=
  match o with
  | [] => []
  | (EOpen path | EClose path) :: rest => path :: files_touched rest
  | _ :: rest => files_touched rest
  end.

(** The shapes of the [params] dictionary in the script. *)
Definition paging_params (params : list (string * param)) : Prop :=
  params = []
  \/ (exists page, 1 <= page
        /\ (params = [("per_page", PInt 100); ("page", PInt page)]
            \/ params = [("per_page", PInt 100); ("page", PInt page);
                         ("affiliation", PStr "all")])).

(** A server on which heidi has a profile without email and nothing
    else exists: her timeline is answered 404. *)
Definition private_timeline_server (rq : request) : response :=
  if String.eqb (req_url rq) "https://api.github.com/users/heidi"
  then ok (JUser {| user_email := None |})
  else failure 404 "Not Found".

(** A server whose rate-limit header on the repositories of garbled is
    not a number. *)
Definition garbled_server (rq : request) : response :=
  if String.eqb (req_url rq) "https://api.github.com/orgs/garbled/repos"
  then ok_remaining (JRepos [repo "one"]) "soon"
  else if String.eqb (req_url rq)
            "https://api.github.com/repos/garbled/one/collaborators"
  then ok_remaining (JCollaborators [member "ivan" ["pull"]]) ""
  else failure 404 "Not Found".

(** A server that answers every page of the repositories of loop with
    the same repository, and every other request with the same
    collaborator: its listings have no last page. *)
Definition endless_server (rq : request) : response :=
  if String.eqb (req_url rq) "https://api.github.com/orgs/loop/repos"
  then ok (JRepos [repo "again"])
  else ok (JCollaborators [member "judy" ["pull"]]).

(** An organisation mixed with three repositories; the collaborators of
    the second one may not be listed. *)
Definition mixed_server (rq : request) : response :=
  let url := req_url rq in
  let page := page_param (req_params rq) in
  if String.eqb url "https://api.github.com/orgs/mixed/repos" then
    ok (JRepos (page_slice [repo "first"; repo "hidden"; repo "last"] page))
  else if String.eqb url "https://api.github.com/repos/mixed/first/collaborators" then
    ok (JCollaborators (page_slice [member "kim" ["push"]] page))
  else if String.eqb url "https://api.github.com/repos/mixed/hidden/collaborators" then
    failure 403 "Must have push access to view repository collaborators."
  else if String.eqb url "https://api.github.com/repos/mixed/last/collaborators" then
    ok (JCollaborators (page_slice [member "lee" ["pull"]] page))
  else if String.eqb url "https://api.github.com/users/kim" then
    ok (JUser {| user_email := Some "kim@example.com" |})
  else failure 404 "Not Found".

(** * main *)

(** What the command line gave, as [parse_args] hands it over: each of
    [--token], [--output] and [--organizations] is optional, [--output]
    has a default, and [--organizations] takes one name or more. *)
Record arguments := {
  arg_token : option string;
  arg_output : option string;
  arg_organizations : option (list string)
}.

(** [a or b] on optional strings. *)
Definition or_else (a b : option string) : option string :=
  if truthy a then a else b.

(** [main] after [parse_args]: [environ] is [os.environ] and [typed] the
    line [input] reads; [input] writes its prompt to the standard output,
    which the trace records like a printed line.  An absent
    [--organizations] is [None], which [generate_report] treats like the
    empty list. *)
Definition main (net : oracle) (fuel : nat) (args : arguments)
    (environ : gmap string string) (typed : string) : M unit :=
  let output := default "github_org_report.csv" (arg_output args) in
  let organizations := default [] (arg_organizations args) in
  let token := or_else (arg_token args) (environ !! "GITHUB_TOKEN") in
  let* token :=
    if negb (truthy token) then
      print "Please enter your GitHub Personal Access Token: ";;
      ret typed
    else ret (default "" token) in
  generate_report net fuel organizations output token.

(** * The enumeration of a run *)

(** What a run enumerates, in its nesting: per organisation the
    repositories its listing gave, per repository the collaborators its
    listing gave, each with the email its lookup gave. *)
Definition collaborator_entry : Type := collaborator * string.
Definition repo_entry : Type := repository * list collaborator_entry.
Definition org_entry : Type := string * list repo_entry.

(** The row of one (organisation, repository, collaborator). *)
Definition entry_row (org_name repo_name : string) (entry : collaborator_entry)
    : list string :=
  [ org_name; repo_name; collab_login (fst entry); snd entry;
    get_permission_level (collab_permissions (fst entry)) ].

(** The history after a block of the report has run after [t]. *)
Definition after {A} (block : M A) (t : trace) : trace := t ++ snd (block t).

(** The remote side may answer a request differently each time, so what a
    run enumerates is what each listing and lookup gives at the moment the
    run issues it.  The three predicates below say so for a given
    enumeration: [t] is the history at which the loop over the entries
    starts. *)
Fixpoint collaborators_enumerated (net : oracle)
    (org_name repo_name token : string) (entries : list collaborator_entry)
    (t : trace) : Prop :=
  match entries with
  | [] => True
  | entry :: rest =>
      fst (get_user_email net (collab_login (fst entry)) token t)
      = Ok (snd entry)
      /\ collaborators_enumerated net org_name repo_name token rest
           (after (collaborator_block net org_name repo_name token (fst entry)) t)
  end.

Fixpoint repos_enumerated (net : oracle) (fuel : nat) (org_name token : string)
    (entries : list repo_entry) (t : trace) : Prop :=
  match entries with
  | [] => True
  | entry :: rest =>
      let name := repo_name (fst entry) in
      let listing :=
        get_collaborators_for_repo net fuel org_name name token in
      let t1 := after (print ("  Processing repository: " +:+ name)) t in
      fst (listing t1) = Ok (map fst (snd entry))
      /\ collaborators_enumerated net org_name name token (snd entry)
           (after listing t1)
      /\ repos_enumerated net fuel org_name token rest
           (after (repo_block net fuel org_name token (fst entry)) t)
  end.

(** The history at which the repositories of an organisation are listed,
    and the one at which the loop over them starts. *)
Definition listing_start (org_name : string) (t : trace) : trace :=
  after (print ("Processing organization: " +:+ org_name)) t.

Definition repos_start (net : oracle) (fuel : nat) (token org_name : string)
    (repos : list repository) (t : trace) : trace :=
  after (print ("Found " +:+ pretty (length repos) +:+ " repositories in "
                +:+ org_name))
    (after (get_repos_for_org net fuel org_name token)
       (listing_start org_name t)).

Fixpoint orgs_enumerated (net : oracle) (fuel : nat) (token : string)
    (tree : list org_entry) (t : trace) : Prop :=
  match tree with
  | [] => True
  | entry :: rest =>
      let org_name := fst entry in
      fst (get_repos_for_org net fuel org_name token (listing_start org_name t))
      = Ok (map fst (snd entry))
      /\ repos_enumerated net fuel org_name token (snd entry)
           (repos_start net fuel token org_name (map fst (snd entry)) t)
      /\ orgs_enumerated net fuel token rest
           (after (org_block net fuel token org_name) t)
  end.

(** The history at which the organisations of a run are resolved. *)
Definition resolve_start (output_file : string) (t : trace) : trace :=
  t ++ [EOpen output_file; EWriteRow header_row].

(** A run of [generate_report] after [t] enumerates [tree]. *)
Definition report_enumerated (net : oracle) (fuel : nat)
    (org_names : list string) (output_file token : string) (t : trace)
    (tree : list org_entry) : Prop :=
  fst (resolve_org_names net org_names token (resolve_start output_file t))
  = Ok (map fst tree)
  /\ orgs_enumerated net fuel token tree
       (after (resolve_org_names net org_names token)
          (resolve_start output_file t)).

(** The rows of an enumeration, in nesting order. *)
Definition repo_entry_rows (org_name : string) (entry : repo_entry)
    : list (list string) :=
  map (entry_row org_name (repo_name (fst entry))) (snd entry).

Definition org_entry_rows (entry : org_entry) : list (list string) :=
  flat_map (repo_entry_rows (fst entry)) (snd entry).

Definition tree_rows (tree : list org_entry) : list (list string) :=
  flat_map org_entry_rows tree.

(** ** More sample servers *)

Definition bad_gateway : response :=
  {| status_code := 502;
     resp_json := NotJson "<html><body>502 Bad Gateway</body></html>";
     resp_headers := ∅ |}.

(** The sample deployment behind a proxy that answers the listings of the
    organisation proxied, of the repository acme/proxied and of the
    memberships with an HTML page. *)
Definition gateway_server (rq : request) : response :=
  let url := req_url rq in
  if String.eqb url "https://api.github.com/orgs/proxied/repos" then bad_gateway
  else if String.eqb url "https://api.github.com/repos/acme/proxied/collaborators"
  then bad_gateway
  else if String.eqb url "https://api.github.com/user/orgs" then bad_gateway
  else demo_server rq.


(** An organisation duo with two repositories that have the same single
    collaborator, on a remote side that answers the lookup of her profile
    once and has lost her at the second lookup: its answer depends on
    the requests it has seen. *)
Definition moody : oracle :=
  fun t rq =>
    let url := req_url rq in
    let page := page_param (req_params rq) in
    if String.eqb url "https://api.github.com/orgs/duo/repos" then
      ok (JRepos (page_slice [repo "left"; repo "right"] page))
    else if String.eqb url "https://api.github.com/repos/duo/left/collaborators" then
      ok (JCollaborators (page_slice [member "alice" ["push"]] page))
    else if String.eqb url "https://api.github.com/repos/duo/right/collaborators" then
      ok (JCollaborators (page_slice [member "alice" ["push"]] page))
    else if String.eqb url "https://api.github.com/users/alice" then
      if existsb (fun seen => String.eqb (req_url seen) url) (requests_of t)
      then failure 404 "Not Found"
      else ok (JUser {| user_email := Some "alice@example.com" |})
    else failure 404 "Not Found".

(** What a run has enumerated when it ends, however it ends: as
    [repos_enumerated], [orgs_enumerated] and [report_enumerated], but
    each listing may have given more than the run went through. *)
Fixpoint repos_begun (net : oracle) (fuel : nat) (org_name token : string)
    (entries : list repo_entry) (t : trace) : Prop :=
  match entries with
  | [] => True
  | entry :: rest =>
      let name := repo_name (fst entry) in
      let listing := get_collaborators_for_repo net fuel org_name name token in
      let t1 := after (print ("  Processing repository: " +:+ name)) t in
      (exists others,
          fst (listing t1) = Ok (map fst (snd entry) ++ others))
      /\ collaborators_enumerated net org_name name token (snd entry)
           (after listing t1)
      /\ repos_begun net fuel org_name token rest
           (after (repo_block net fuel org_name token (fst entry)) t)
  end.

Fixpoint orgs_begun (net : oracle) (fuel : nat) (token : string)
    (tree : list org_entry) (t : trace) : Prop :=
  match tree with
  | [] => True
  | entry :: rest =>
      let org_name := fst entry in
      (exists others,
          fst (get_repos_for_org net fuel org_name token
                 (listing_start org_name t))
          = Ok (map fst (snd entry) ++ others)
          /\ repos_begun net fuel org_name token (snd entry)
               (repos_start net fuel token org_name
                  (map fst (snd entry) ++ others) t))
      /\ orgs_begun net fuel token rest
           (after (org_block net fuel token org_name) t)
  end.

Definition report_begun (net : oracle) (fuel : nat) (org_names : list string)
    (output_file token : string) (t : trace) (tree : list org_entry) : Prop :=
  tree = []
  \/ exists others,
       fst (resolve_org_names net org_names token (resolve_start output_file t))
       = Ok (map fst tree ++ others)
       /\ orgs_begun net fuel token tree
            (after (resolve_org_names net org_names token)
               (resolve_start output_file t)).

(** The effects of a computation run after [t] append exactly the rows
    [more] to the file, however the computation ends. *)
Definition appends {A} (m : M A) (t : trace) (more : list (list string))
    : Prop :=
  forall rows, rows_from rows (snd (m t)) = rows ++ more.

(** A computation that does not return after [t]. *)
Definition stuck {A} (m : M A) (t : trace) : Prop :=
  forall a, fst (m t) <> Ok a.

(** * Properties *)

(** ** The permission classifier *)






(** ** The email resolver *)

(** C8: a profile that carries a non-empty email is answered with that
    email, and the profile request is the only effect: the event timeline
    is neither fetched nor looked at. *)
Theorem get_user_email_profile (net : oracle) (username token : string)
    (t : trace) (profile : response) (address : string) :
  net t (profile_request username token) = profile ->
  status_code profile = 200 ->
  resp_json profile = JUser {| user_email := Some address |} ->
  address <> "" ->
  get_user_email net username token t
  = (Ok address, [EGet (profile_request username token) profile]).
Proof.
  intros Hp Hstatus Hjson Hne.
  unfold get_user_email, bind, requests_get, lift, ret.
  unfold profile_request in *.
  rewrite Hp, Hstatus, Hjson. cbn -[String.append].
  destruct address as [|c rest]; [congruence|]. reflexivity.
Qed.

Lemma get_user_email_profile_witness :
  get_user_email demo "alice" "secret" []
  = (Ok "alice@example.com",
     [EGet (profile_request "alice" "secret")
           (ok (JUser {| user_email := Some "alice@example.com" |}))]).
Proof.
  apply (get_user_email_profile demo "alice" "secret" []
           (ok (JUser {| user_email := Some "alice@example.com" |}))
           "alice@example.com").
  - reflexivity.
  - reflexivity.
  - reflexivity.
  - discriminate.
Defined.

(** C9: a profile lookup that is not answered with 200 gives the sentinel
    at once; the profile request is the only effect, so the timeline
    request is never issued. *)
Theorem get_user_email_profile_failure (net : oracle) (username token : string)
    (t : trace) (profile : response) :
  net t (profile_request username token) = profile ->
  status_code profile <> 200 ->
  get_user_email net username token t
  = (Ok "Not available", [EGet (profile_request username token) profile]).
Proof.
  intros Hp Hstatus.
  unfold get_user_email, bind, requests_get, ret.
  unfold profile_request in *.
  apply Z.eqb_neq in Hstatus. rewrite Hp, Hstatus. reflexivity.
Qed.

Lemma get_user_email_profile_failure_witness :
  get_user_email demo "mallory" "secret" []
  = (Ok "Not available",
     [EGet (profile_request "mallory" "secret") (failure 404 "Not Found")]).
Proof.
  apply (get_user_email_profile_failure demo "mallory" "secret" []
           (failure 404 "Not Found")).
  - reflexivity.
  - discriminate.
Defined.

(** What the timeline scan computes: it leaves through [return] at the
    first address that is not masked; otherwise it runs to its end, and
    the variable [email] holds the last address that was assigned to it. *)
Lemma scan_commits_spec (commits : list commit) (email : option string) :
  scan_commits commits email =
  match find (fun a => negb (masked a)) (commit_addresses commits) with
  | Some address => Return address
  | None => Fallthrough (fold_left (fun _ a => Some a) (commit_addresses commits) email)
  end.
Proof.
  revert email. induction commits as [|commit rest IH]; intros email; [reflexivity|].
  unfold commit_addresses in *. simpl.
  destruct (commit_author commit) as [[[[|c s]|]]|]; simpl; try apply IH.
  unfold masked at 1.
  destruct (endswith (String c s) "noreply.github.com"); simpl; [apply IH|reflexivity].
Qed.

Lemma find_app_first {A} (p : A -> bool) (l1 l2 : list A) :
  find p (l1 ++ l2) = match find p l1 with Some x => Some x | None => find p l2 end.
Proof.
  induction l1 as [|x l1 IH]; simpl; [reflexivity|].
  destruct (p x); [reflexivity|apply IH].
Qed.

Lemma scan_events_spec (events : list gh_event) (email : option string) :
  scan_events events email =
  match find (fun a => negb (masked a)) (timeline_addresses events) with
  | Some address => Return address
  | None => Fallthrough (fold_left (fun _ a => Some a) (timeline_addresses events) email)
  end.
Proof.
  revert email. induction events as [|event rest IH]; intros email; [reflexivity|].
  unfold timeline_addresses in *. simpl.
  destruct (String.eqb (event_type event) "PushEvent"); simpl; [|apply IH].
  destruct (event_payload event) as [payload|]; simpl; [|apply IH].
  rewrite scan_commits_spec, find_app_first, fold_left_app.
  destruct (find _ (commit_addresses _)); [reflexivity|apply IH].
Qed.

(** The resolver on a profile without email: both requests are issued,
    and the answer is read off the addresses of the timeline. *)
Lemma get_user_email_timeline (net : oracle) (username token : string)
    (t : trace) (profile timeline : response) (email : option string)
    (events : list gh_event) :
  net t (profile_request username token) = profile ->
  status_code profile = 200 ->
  resp_json profile = JUser {| user_email := email |} ->
  truthy email = false ->
  net (t ++ [EGet (profile_request username token) profile])
      (events_request username token) = timeline ->
  status_code timeline = 200 ->
  resp_json timeline = JEvents events ->
  get_user_email net username token t
  = (Ok match find (fun a => negb (masked a)) (timeline_addresses events) with
        | Some address => address
        | None => email_or_not_available
                    (fold_left (fun _ a => Some a) (timeline_addresses events) email)
        end,
     [EGet (profile_request username token) profile;
      EGet (events_request username token) timeline]).
Proof.
  intros Hp Hs Hj He Ht Hts Htj.
  unfold get_user_email, bind, requests_get, lift, ret.
  unfold profile_request, events_request in *.
  rewrite Hp, Hs, Hj. cbn -[String.append]. rewrite He. cbn -[String.append].
  rewrite app_nil_r, Ht, Hts, Htj. cbn -[String.append].
  rewrite scan_events_spec.
  destruct (find _ _); reflexivity.
Qed.

(** X10 (the first half of C1, which the code does): on a profile
    without email and a timeline answered with 200, the first address of
    the timeline that is not masked is the answer, whatever follows it. *)
Lemma get_user_email_first_unmasked (net : oracle) (username token : string)
    (t : trace) (profile timeline : response) (email : option string)
    (events : list gh_event) (before after : list string) (address : string) :
  net t (profile_request username token) = profile ->
  status_code profile = 200 ->
  resp_json profile = JUser {| user_email := email |} ->
  truthy email = false ->
  net (t ++ [EGet (profile_request username token) profile])
      (events_request username token) = timeline ->
  status_code timeline = 200 ->
  resp_json timeline = JEvents events ->
  timeline_addresses events = before ++ address :: after ->
  Forall (fun a => masked a = true) before ->
  masked address = false ->
  get_user_email net username token t
  = (Ok address,
     [EGet (profile_request username token) profile;
      EGet (events_request username token) timeline]).
Proof.
  intros Hp Hs Hj He Ht Hts Htj Haddr Hbefore Hfree.
  rewrite (get_user_email_timeline net username token t profile timeline email events)
    by assumption.
  rewrite Haddr, find_app_first.
  replace (find _ before) with (@None string).
  - simpl. now rewrite Hfree.
  - clear -Hbefore. induction Hbefore as [|a l Ha _ IH]; simpl; [reflexivity|].
    now rewrite Ha.
Qed.

(** X11: on a profile without email, a timeline without any author
    address (no event, no push event, commits without author email) gives
    the sentinel. *)
Lemma get_user_email_no_address (net : oracle) (username token : string)
    (t : trace) (profile timeline : response) (email : option string)
    (events : list gh_event) :
  net t (profile_request username token) = profile ->
  status_code profile = 200 ->
  resp_json profile = JUser {| user_email := email |} ->
  truthy email = false ->
  net (t ++ [EGet (profile_request username token) profile])
      (events_request username token) = timeline ->
  status_code timeline = 200 ->
  resp_json timeline = JEvents events ->
  timeline_addresses events = [] ->
  get_user_email net username token t
  = (Ok "Not available",
     [EGet (profile_request username token) profile;
      EGet (events_request username token) timeline]).
Proof.
  intros Hp Hs Hj He Ht Hts Htj Haddr.
  rewrite (get_user_email_timeline net username token t profile timeline email events)
    by assumption.
  rewrite Haddr. simpl. destruct email as [[|c s]|]; simpl in *; congruence.
Qed.

(** X12 (where C1 fails): when every address of a non-empty timeline is
    masked, the answer is the last of them, a masked address, not the
    sentinel. *)
Lemma get_user_email_all_masked (net : oracle) (username token : string)
    (t : trace) (profile timeline : response) (email : option string)
    (events : list gh_event) (before : list string) (address : string) :
  net t (profile_request username token) = profile ->
  status_code profile = 200 ->
  resp_json profile = JUser {| user_email := email |} ->
  truthy email = false ->
  net (t ++ [EGet (profile_request username token) profile])
      (events_request username token) = timeline ->
  status_code timeline = 200 ->
  resp_json timeline = JEvents events ->
  timeline_addresses events = before ++ [address] ->
  Forall (fun a => masked a = true) (before ++ [address]) ->
  address <> "" ->
  get_user_email net username token t
  = (Ok address,
     [EGet (profile_request username token) profile;
      EGet (events_request username token) timeline]).
Proof.
  intros Hp Hs Hj He Ht Hts Htj Haddr Hall Hne.
  rewrite (get_user_email_timeline net username token t profile timeline email events)
    by assumption.
  rewrite Haddr, fold_left_app. simpl.
  replace (find _ (before ++ [address])) with (@None string).
  - destruct address; [congruence|reflexivity].
  - clear -Hall. induction Hall as [|a l Ha _ IH]; simpl; [reflexivity|].
    now rewrite Ha.
Qed.

(** C1, at the input where the code departs from it: carol's profile has
    no email and the only commit address of her timeline is masked; the
    resolver answers with that masked address, not with the sentinel. *)
Theorem get_user_email_answers_masked_address :
  timeline_addresses [push_event ["1234+carol@users.noreply.github.com"]]
  = ["1234+carol@users.noreply.github.com"]
  /\ masked "1234+carol@users.noreply.github.com" = true
  /\ get_user_email demo "carol" "secret" []
     = (Ok "1234+carol@users.noreply.github.com",
        [EGet (profile_request "carol" "secret")
              (ok (JUser {| user_email := None |}));
         EGet (events_request "carol" "secret")
              (ok (JEvents [push_event ["1234+carol@users.noreply.github.com"]]))])
  /\ fst (get_user_email demo "carol" "secret" []) <> Ok "Not available".
Proof.
  split; [reflexivity|]. split; [reflexivity|]. split; [reflexivity|].
  discriminate.
Qed.

(** ** Pagination *)

(** The pause does not look at the history, performs no request, and
    sleeps 60 seconds when it sleeps. *)
Lemma rate_limit_pause_history (rs : response) (t : trace) :
  rate_limit_pause rs t = rate_limit_pause rs [].
Proof.
  unfold rate_limit_pause. destruct (header _ rs) as [v|]; [|reflexivity].
  unfold bind, lift. destruct (py_int v) as [n| |]; try reflexivity.
  destruct (n <? 10)%Z; reflexivity.
Qed.

Lemma rate_limit_pause_cases (rs : response) :
  rate_limit_pause rs [] = (Ok tt, [])
  \/ rate_limit_pause rs []
     = (Ok tt, [EPrint "Rate limit approaching, sleeping for a minute..."; ESleep 60])
  \/ rate_limit_pause rs [] = (Raise ValueError, []).
Proof.
  unfold rate_limit_pause. destruct (header _ rs) as [v|]; [|now left].
  unfold bind, lift, py_int.
  destruct (rstrip (lstrip v)) as [|c s]; simpl.
  - now right; right.
  - set (sign := match c with "-"%char => _ | _ => _ end).
    destruct sign as [negative ds].
    destruct (digits ds None false) as [n|]; [|now right; right].
    destruct ((if negative then - n else n) <? 10)%Z; [right; left|left]; reflexivity.
Qed.

Lemma requests_of_app (o1 o2 : trace) :
  requests_of (o1 ++ o2) = requests_of o1 ++ requests_of o2.
Proof.
  induction o1 as [|e o1 IH]; simpl; [reflexivity|].
  destruct e; simpl; now rewrite IH.
Qed.

Lemma requests_of_turn (rq : request) (rs : response) :
  requests_of (turn_effects rq rs) = [rq].
Proof.
  unfold turn_effects. simpl.
  destruct (rate_limit_pause_cases rs) as [H|[H|H]]; rewrite H; reflexivity.
Qed.

Lemma requests_of_pages (request_for : Z -> request) (pages : list response)
    (page : Z) :
  requests_of (pages_effects request_for page pages)
  = map request_for (map (fun i => page + Z.of_nat i) (seq 0 (length pages))).
Proof.
  revert page. induction pages as [|rs rest IH]; intros page; [reflexivity|].
  change (pages_effects request_for page (rs :: rest))
    with (turn_effects (request_for page) rs
          ++ pages_effects request_for (page + 1) rest).
  rewrite requests_of_app, requests_of_turn, IH.
  simpl. rewrite Z.add_0_r. f_equal. rewrite <- seq_shift, !map_map.
  apply map_ext. intros i. f_equal. lia.
Qed.

(** Each loop of the script is an instance of [paginate]. *)
Ltac loop_is_paginate IH rq :=
  cbn -[String.append rate_limit_pause pretty];
  fold rq;
  let rs := fresh "rs" in
  match goal with
  | |- context [status_code ?r] => set (rs := r)
  end;
  destruct (status_code rs =? 200)%Z;
    [|cbn -[String.append rate_limit_pause pretty];
      unfold bind, print, print_json, emit, raise, ret;
      destruct (resp_json rs); reflexivity];
  cbn -[String.append rate_limit_pause pretty];
  unfold bind, lift;
  match goal with
  | |- context [match ?d with Ok _ => _ | Raise _ => _ | Timeout => _ end] =>
      destruct d as [[|? ?]| |]; try reflexivity
  end;
  cbn -[String.append rate_limit_pause pretty];
  rewrite !app_nil_r;
  match goal with
  | |- context [rate_limit_pause rs ?h] =>
      destruct (rate_limit_pause rs h) as [[[]| |] ?]; try reflexivity
  end;
  rewrite <- app_assoc; simpl app; rewrite IH;
  match goal with
  | |- context [paginate ?n ?r ?d ?e ?f ?a ?p ?h] =>
      destruct (paginate n r d e f a p h) as [? ?]; reflexivity
  end.

Lemma get_repos_for_org_loop_paginate (net : oracle) (org_name token : string)
    (fuel : nat) (all : list repository) (page : Z) (t : trace) :
  get_repos_for_org_loop net fuel org_name (get_headers token) all page t
  = paginate net (repos_request org_name token) as_repos
      (repos_error_line org_name) fuel all page t.
Proof.
  revert all page t. induction fuel as [|fuel IH]; intros all page t; [reflexivity|].
  loop_is_paginate IH (repos_request org_name token page).
Qed.

Lemma get_collaborators_for_repo_loop_paginate (net : oracle)
    (org_name repo_name token : string) (fuel : nat)
    (all : list collaborator) (page : Z) (t : trace) :
  get_collaborators_for_repo_loop net fuel org_name repo_name
    (get_headers token) all page t
  = paginate net (collaborators_request org_name repo_name token)
      as_collaborators (collaborators_error_line org_name repo_name)
      fuel all page t.
Proof.
  revert all page t. induction fuel as [|fuel IH]; intros all page t; [reflexivity|].
  loop_is_paginate IH (collaborators_request org_name repo_name token page).
Qed.

(** The run of the loop over pages that have items, up to and including
    the page it ends on: an empty page, or a status other than 200. *)
Lemma paginate_run {A} (net : oracle) (request_for : Z -> request)
    (decode : json -> outcome (list A)) (error_line : Z -> string)
    (pages : list response) (itemss : list (list A)) (final : response) :
  Forall2 (full_page decode) pages itemss ->
  (status_code final <> 200 /\ is_json (resp_json final))
  \/ empty_page decode final ->
  forall (fuel : nat) (all : list A) (page : Z) (t : trace),
  serves net request_for t page pages final ->
  (length pages < fuel)%nat ->
  paginate net request_for decode error_line fuel all page t
  = (Ok (all ++ concat itemss),
     pages_effects request_for page pages
     ++ final_effects error_line
          (request_for (page + Z.of_nat (length pages))) final).
Proof.
  intros Hpages Hfinal.
  induction Hpages as [|rs items pages itemss Hfull _ IH];
    intros fuel all page t Hserves Hfuel.
  - destruct fuel as [|fuel]; [simpl in Hfuel; lia|].
    simpl in Hserves. simpl. rewrite Hserves, Z.add_0_r, app_nil_r.
    unfold final_effects.
    destruct Hfinal as [[Hstatus Hjson]|[Hstatus Hdecode]].
    + apply Z.eqb_neq in Hstatus. rewrite Hstatus.
      destruct (resp_json final); [reflexivity..|contradiction].
    + rewrite Hstatus, Hdecode. reflexivity.
  - destruct fuel as [|fuel]; [simpl in Hfuel; lia|].
    destruct Hserves as [Hrs Hserves].
    destruct Hfull as (Hstatus & Hdecode & Hitems & Hpause).
    cbn [paginate]. rewrite Hrs, Hstatus, Hdecode.
    destruct items as [|item items]; [congruence|].
    cbn [Z.eqb Pos.eqb negb is_empty].
    rewrite rate_limit_pause_history.
    cbn [pages_effects length]. unfold turn_effects in *.
    destruct (rate_limit_pause rs []) as [r pause]. simpl in Hpause, Hserves.
    subst r.
    rewrite (IH fuel (all ++ item :: items) (page + 1) _ Hserves)
      by (simpl in Hfuel; lia).
    f_equal.
    + now rewrite <- app_assoc.
    + simpl. rewrite <- app_assoc.
      replace (page + 1 + Z.of_nat (length pages))
        with (page + Z.of_nat (S (length pages))) by lia.
      reflexivity.
Qed.

Lemma requests_of_run (request_for : Z -> request) (error_line : Z -> string)
    (pages : list response) (final : response) :
  requests_of (pages_effects request_for 1 pages
               ++ final_effects error_line
                    (request_for (1 + Z.of_nat (length pages))) final)
  = map request_for (page_numbers (S (length pages))).
Proof.
  rewrite requests_of_app, requests_of_pages.
  unfold final_effects, page_numbers.
  replace (requests_of (EGet _ final :: _))
    with [request_for (1 + Z.of_nat (length pages))]
    by (simpl; destruct (status_code final =? 200)%Z; [reflexivity|];
        destruct (resp_json final); reflexivity).
  rewrite seq_S, !map_app, <- seq_shift, !map_map. simpl.
  f_equal.
  - apply map_ext. intros i. f_equal. lia.
  - do 2 f_equal. lia.
Qed.

Lemma get_organizations_requests (net : oracle) (token : string) (t : trace) :
  requests_of (snd (get_organizations net token t)) = [orgs_request token].
Proof.
  unfold get_organizations, bind, requests_get. fold (orgs_request token).
  set (rs := net t (orgs_request token)).
  destruct (status_code rs =? 200)%Z; cbn -[String.append pretty].
  - destruct (as_orgs (resp_json rs)); reflexivity.
  - unfold print_json, emit, raise. destruct (resp_json rs); reflexivity.
Qed.

(** C3, as the code has it: both paginated fetches ask for pages 1, 2, ...
    with [per_page] 100; when pages 1 .. n come back with items and page
    n + 1 comes back empty, the fetch ends there, after exactly n + 1
    requests, with the items of pages 1 .. n in order.  The organisation
    listing is one request without page parameters. *)
Theorem pagination_until_empty_page (net : oracle) (token : string)
    (fuel : nat) (t : trace) :
  (forall org_name pages itemss final,
      Forall2 (full_page as_repos) pages itemss ->
      empty_page as_repos final ->
      serves net (repos_request org_name token) t 1 pages final ->
      (length pages < fuel)%nat ->
      get_repos_for_org net fuel org_name token t
      = (Ok (concat itemss),
         pages_effects (repos_request org_name token) 1 pages
         ++ [EGet (repos_request org_name token (1 + Z.of_nat (length pages)))
                  final])
      /\ requests_of (snd (get_repos_for_org net fuel org_name token t))
         = map (repos_request org_name token) (page_numbers (S (length pages))))
  /\ (forall org_name repo_name pages itemss final,
      Forall2 (full_page as_collaborators) pages itemss ->
      empty_page as_collaborators final ->
      serves net (collaborators_request org_name repo_name token) t 1 pages final ->
      (length pages < fuel)%nat ->
      get_collaborators_for_repo net fuel org_name repo_name token t
      = (Ok (concat itemss),
         pages_effects (collaborators_request org_name repo_name token) 1 pages
         ++ [EGet (collaborators_request org_name repo_name token
                     (1 + Z.of_nat (length pages))) final])
      /\ requests_of
           (snd (get_collaborators_for_repo net fuel org_name repo_name token t))
         = map (collaborators_request org_name repo_name token)
             (page_numbers (S (length pages))))
  /\ requests_of (snd (get_organizations net token t)) = [orgs_request token].
Proof.
  split; [|split].
  - intros org_name pages itemss final Hpages Hfinal Hserves Hfuel.
    unfold get_repos_for_org. rewrite get_repos_for_org_loop_paginate.
    rewrite (paginate_run net _ as_repos _ pages itemss final Hpages
               (or_intror Hfinal) fuel [] 1 t Hserves Hfuel).
    cbn [snd]. rewrite requests_of_run.
    unfold final_effects. destruct Hfinal as [-> _]. now simpl.
  - intros org_name repo_name pages itemss final Hpages Hfinal Hserves Hfuel.
    unfold get_collaborators_for_repo.
    rewrite get_collaborators_for_repo_loop_paginate.
    rewrite (paginate_run net _ as_collaborators _ pages itemss final Hpages
               (or_intror Hfinal) fuel [] 1 t Hserves Hfuel).
    cbn [snd]. rewrite requests_of_run.
    unfold final_effects. destruct Hfinal as [-> _]. now simpl.
  - apply get_organizations_requests.
Qed.

Lemma pagination_until_empty_page_witness :
  get_repos_for_org demo 5 "acme" "secret" []
  = (Ok [repo "widgets"; repo "gadgets"],
     [EGet (repos_request "acme" "secret" 1)
           (ok (JRepos [repo "widgets"; repo "gadgets"]));
      EGet (repos_request "acme" "secret" 2) (ok (JRepos []))])
  /\ fst (get_collaborators_for_repo demo 5 "acme" "widgets" "secret" [])
     = Ok [member "alice" ["push"; "pull"]; member "bob" ["pull"]].
Proof.
  destruct (pagination_until_empty_page demo "secret" 5 [])
    as (Hrepos & Hcollaborators & _).
  split.
  - apply (Hrepos "acme" [ok (JRepos [repo "widgets"; repo "gadgets"])]
             [[repo "widgets"; repo "gadgets"]] (ok (JRepos []))).
    + repeat constructor. discriminate.
    + split; reflexivity.
    + split; reflexivity.
    + simpl. lia.
  - rewrite (proj1 (Hcollaborators "acme" "widgets"
       [ok (JCollaborators [member "alice" ["push"; "pull"]; member "bob" ["pull"]])]
       [[member "alice" ["push"; "pull"]; member "bob" ["pull"]]]
       (ok (JCollaborators []))
       ltac:(repeat constructor; discriminate)
       ltac:(split; reflexivity)
       ltac:(split; reflexivity)
       ltac:(simpl; lia))).
    reflexivity.
Defined.

(** C3 as stated fails on its own example: a collection of 250 items
    served 100 at a time takes four requests, not three; after the third
    page, which has 50 items, the loop asks for a fourth and ends on its
    emptiness.  Three turns of the loop do not finish the fetch. *)
Lemma pagination_250_items_takes_4_requests :
  length big_collection = 250%nat
  /\ fst (get_repos_for_org demo 4 "big" "secret" []) = Ok big_collection
  /\ requests_of (snd (get_repos_for_org demo 4 "big" "secret" []))
     = map (repos_request "big" "secret") [1; 2; 3; 4]
  /\ length (requests_of (snd (get_repos_for_org demo 4 "big" "secret" [])))
     <> 3%nat
  /\ fst (get_repos_for_org demo 3 "big" "secret" []) = Timeout.
Proof.
  split; [reflexivity|]. split; [vm_compute; reflexivity|].
  split; [vm_compute; reflexivity|]. split; [vm_compute; discriminate|].
  vm_compute; reflexivity.
Qed.




(** ** The pause between pages *)

Lemma paginate_starts {A} (net : oracle) (request_for : Z -> request)
    (decode : json -> outcome (list A)) (error_line : Z -> string)
    (fuel : nat) (all : list A) (page : Z) (t : trace) :
  exists r rest,
    paginate net request_for decode error_line (S fuel) all page t
    = (r, EGet (request_for page) (net t (request_for page)) :: rest).
Proof.
  cbn [paginate]. set (rs := net t (request_for page)).
  destruct (negb (status_code rs =? 200)%Z);
    [destruct (resp_json rs); eauto|].
  destruct (decode (resp_json rs)) as [[|item items]| |]; eauto.
  cbn [is_empty].
  destruct (rate_limit_pause rs _) as [[[]| |] pause]; eauto.
  destruct (paginate _ _ _ _ _ _ _ _) as [r o]. eauto.
Qed.

Lemma paginate_turn {A} (net : oracle) (request_for : Z -> request)
    (decode : json -> outcome (list A)) (error_line : Z -> string)
    (fuel : nat) (all : list A) (page : Z) (t : trace)
    (rs : response) (items : list A) (remaining : string) (n : Z) :
  net t (request_for page) = rs ->
  status_code rs = 200 ->
  decode (resp_json rs) = Ok items ->
  items <> [] ->
  header "X-RateLimit-Remaining" rs = Some remaining ->
  py_int remaining = Ok n ->
  let pause :=
    if (n <? 10)%Z
    then [EPrint "Rate limit approaching, sleeping for a minute..."; ESleep 60]
    else [] in
  let next := request_for (page + 1) in
  exists r rest,
    paginate net request_for decode error_line (S (S fuel)) all page t
    = (r, EGet (request_for page) rs :: pause
          ++ EGet next (net (t ++ EGet (request_for page) rs :: pause) next)
          :: rest).
Proof.
  intros Hrs Hstatus Hdecode Hitems Hheader Hint pause next.
  assert (Hpause : forall h, rate_limit_pause rs h = (Ok tt, pause)).
  { intros h. unfold rate_limit_pause. rewrite Hheader.
    unfold bind, lift. rewrite Hint. subst pause.
    destruct (n <? 10)%Z; reflexivity. }
  destruct (paginate_starts net request_for decode error_line fuel
              (all ++ items) (page + 1)
              (t ++ EGet (request_for page) rs :: pause)) as (r & rest & Hnext).
  exists r, rest. remember (S fuel) as fuel1 eqn:Hfuel1.
  cbn [paginate].
  rewrite Hrs, Hstatus, Hdecode, Hpause.
  destruct items as [|item items]; [congruence|].
  cbn [Z.eqb Pos.eqb negb is_empty]. subst fuel1. rewrite Hnext. reflexivity.
Qed.

(** C6: in both paginated fetches, after a page with items whose
    rate-limit counter reads [n], the next effects are, when [n < 10], the
    notice and a sleep of 60 seconds and only then the request for the
    next page; when [n >= 10], the request for the next page at once. *)
Theorem rate_limit_cooldown (net : oracle) (token : string) (fuel : nat)
    (t : trace) (rs : response) (remaining : string) (n : Z) :
  status_code rs = 200 ->
  header "X-RateLimit-Remaining" rs = Some remaining ->
  py_int remaining = Ok n ->
  let pause :=
    if (n <? 10)%Z
    then [EPrint "Rate limit approaching, sleeping for a minute..."; ESleep 60]
    else [] in
  (forall org_name all page items,
      net t (repos_request org_name token page) = rs ->
      resp_json rs = JRepos items ->
      items <> [] ->
      exists r rest,
        get_repos_for_org_loop net (S (S fuel)) org_name (get_headers token)
          all page t
        = (r, EGet (repos_request org_name token page) rs :: pause
              ++ EGet (repos_request org_name token (page + 1))
                   (net (t ++ EGet (repos_request org_name token page) rs :: pause)
                        (repos_request org_name token (page + 1)))
              :: rest))
  /\ (forall org_name repo_name all page items,
      net t (collaborators_request org_name repo_name token page) = rs ->
      resp_json rs = JCollaborators items ->
      items <> [] ->
      exists r rest,
        get_collaborators_for_repo_loop net (S (S fuel)) org_name repo_name
          (get_headers token) all page t
        = (r, EGet (collaborators_request org_name repo_name token page) rs :: pause
              ++ EGet (collaborators_request org_name repo_name token (page + 1))
                   (net (t ++ EGet (collaborators_request org_name repo_name
                                      token page) rs :: pause)
                        (collaborators_request org_name repo_name token (page + 1)))
              :: rest)).
Proof.
  intros Hstatus Hheader Hint pause. split.
  - intros org_name all page items Hrs Hjson Hitems.
    rewrite get_repos_for_org_loop_paginate.
    apply (paginate_turn net (repos_request org_name token) as_repos _ fuel
             all page t rs items remaining n); try assumption.
    rewrite Hjson. reflexivity.
  - intros org_name repo_name all page items Hrs Hjson Hitems.
    rewrite get_collaborators_for_repo_loop_paginate.
    apply (paginate_turn net (collaborators_request org_name repo_name token)
             as_collaborators _ fuel all page t rs items remaining n);
      try assumption.
    rewrite Hjson. reflexivity.
Qed.

Lemma rate_limit_cooldown_witness :
  (exists r rest,
      get_repos_for_org_loop demo 2 "busy" (get_headers "secret") [] 1 []
      = (r, EGet (repos_request "busy" "secret" 1)
                 (ok_remaining (JRepos [repo "one"]) "9")
            :: EPrint "Rate limit approaching, sleeping for a minute..."
            :: ESleep 60
            :: EGet (repos_request "busy" "secret" 2)
                    (ok_remaining (JRepos [repo "two"]) "10")
            :: rest))
  /\ (exists r rest,
      get_repos_for_org_loop demo 2 "busy" (get_headers "secret")
        [repo "one"] 2 []
      = (r, EGet (repos_request "busy" "secret" 2)
                 (ok_remaining (JRepos [repo "two"]) "10")
            :: EGet (repos_request "busy" "secret" 3) (ok (JRepos []))
            :: rest))
  /\ (exists r rest,
      get_collaborators_for_repo_loop demo 2 "busy" "one" (get_headers "secret")
        [] 1 []
      = (r, EGet (collaborators_request "busy" "one" "secret" 1)
                 (ok_remaining (JCollaborators [member "frank" ["pull"]]) "3")
            :: EPrint "Rate limit approaching, sleeping for a minute..."
            :: ESleep 60
            :: EGet (collaborators_request "busy" "one" "secret" 2)
                    (ok_remaining (JCollaborators [member "grace" ["push"]]) "4999")
            :: rest)).
Proof.
  split; [|split].
  - apply (proj1 (rate_limit_cooldown demo "secret" 0 []
                    (ok_remaining (JRepos [repo "one"]) "9") "9" 9
                    eq_refl eq_refl eq_refl)
             "busy" [] 1 [repo "one"]).
    + reflexivity.
    + reflexivity.
    + discriminate.
  - apply (proj1 (rate_limit_cooldown demo "secret" 0 []
                    (ok_remaining (JRepos [repo "two"]) "10") "10" 10
                    eq_refl eq_refl eq_refl)
             "busy" [repo "one"] 2 [repo "two"]).
    + reflexivity.
    + reflexivity.
    + discriminate.
  - apply (proj2 (rate_limit_cooldown demo "secret" 0 []
                    (ok_remaining (JCollaborators [member "frank" ["pull"]]) "3")
                    "3" 3 eq_refl eq_refl eq_refl)
             "busy" "one" [] 1 [member "frank" ["pull"]]).
    + reflexivity.
    + reflexivity.
    + discriminate.
Defined.

(** ** The report *)

Lemma generate_report_blocks (net : oracle) (fuel : nat)
    (org_names : list string) (output_file token : string) :
  generate_report net fuel org_names output_file token
  = (with_open output_file (
       writerow header_row;;
       let* org_names := resolve_org_names net org_names token in
       for_each org_names (org_block net fuel token));;
     print ("Report generated successfully: " +:+ output_file)).
Proof. reflexivity. Qed.

(** *** Fetches leave the file alone *)

Lemma file_untouched_app (o1 o2 : trace) :
  file_untouched (o1 ++ o2) = file_untouched o1 && file_untouched o2.
Proof.
  induction o1 as [|e o1 IH]; [reflexivity|]. destruct e; simpl; auto.
Qed.

Lemma rate_limit_pause_untouched (rs : response) (t : trace) :
  file_untouched (snd (rate_limit_pause rs t)) = true.
Proof.
  rewrite rate_limit_pause_history.
  destruct (rate_limit_pause_cases rs) as [H|[H|H]]; rewrite H; reflexivity.
Qed.

Lemma paginate_untouched {A} (net : oracle) (request_for : Z -> request)
    (decode : json -> outcome (list A)) (error_line : Z -> string)
    (fuel : nat) (all : list A) (page : Z) (t : trace) :
  file_untouched (snd (paginate net request_for decode error_line fuel all page t))
  = true.
Proof.
  revert all page t. induction fuel as [|fuel IH]; intros all page t; [reflexivity|].
  cbn [paginate]. set (rs := net t (request_for page)).
  destruct (negb (status_code rs =? 200)%Z);
    [destruct (resp_json rs); reflexivity|].
  destruct (decode (resp_json rs)) as [[|item items]| |]; try reflexivity.
  cbn [is_empty].
  pose proof (rate_limit_pause_untouched rs (t ++ [EGet (request_for page) rs]))
    as Hpause.
  destruct (rate_limit_pause rs _) as [[[]| |] pause]; simpl in Hpause;
    try (simpl; exact Hpause).
  specialize (IH (all ++ item :: items) (page + 1)
                 (t ++ EGet (request_for page) rs :: pause)).
  destruct (paginate _ _ _ _ _ _ _ _) as [r o]. simpl in *.
  now rewrite file_untouched_app, Hpause, IH.
Qed.

Lemma get_repos_for_org_untouched (net : oracle) (fuel : nat)
    (org_name token : string) (t : trace) :
  file_untouched (snd (get_repos_for_org net fuel org_name token t)) = true.
Proof.
  unfold get_repos_for_org. rewrite get_repos_for_org_loop_paginate.
  apply paginate_untouched.
Qed.

Lemma get_collaborators_for_repo_untouched (net : oracle) (fuel : nat)
    (org_name repo_name token : string) (t : trace) :
  file_untouched (snd (get_collaborators_for_repo net fuel org_name repo_name
                         token t)) = true.
Proof.
  unfold get_collaborators_for_repo.
  rewrite get_collaborators_for_repo_loop_paginate.
  apply paginate_untouched.
Qed.

Lemma get_user_email_untouched (net : oracle) (username token : string)
    (t : trace) :
  file_untouched (snd (get_user_email net username token t)) = true.
Proof.
  unfold get_user_email, bind, requests_get, lift, ret.
  fold (profile_request username token). fold (events_request username token).
  set (profile := net t _).
  destruct (status_code profile =? 200)%Z; [|reflexivity].
  cbn -[String.append].
  destruct (as_user (resp_json profile)) as [u| |]; try reflexivity.
  destruct (truthy (user_email u)); cbn -[String.append].
  - reflexivity.
  - set (timeline := net _ _).
    destruct (status_code timeline =? 200)%Z; cbn -[String.append].
    + destruct (as_events (resp_json timeline)) as [events| |]; try reflexivity.
      cbn -[String.append]. destruct (scan_events events _); reflexivity.
    + reflexivity.
Qed.

Lemma get_organizations_untouched (net : oracle) (token : string) (t : trace) :
  file_untouched (snd (get_organizations net token t)) = true.
Proof.
  unfold get_organizations, bind, requests_get. fold (orgs_request token).
  set (rs := net t (orgs_request token)).
  destruct (status_code rs =? 200)%Z; cbn -[String.append pretty].
  - destruct (as_orgs (resp_json rs)); reflexivity.
  - unfold print_json, emit, raise. destruct (resp_json rs); reflexivity.
Qed.

(** *** On a stateless server a fetch does not depend on the history *)

Lemma paginate_stateless {A} (server : request -> response)
    (request_for : Z -> request) (decode : json -> outcome (list A))
    (error_line : Z -> string) (fuel : nat) (all : list A) (page : Z)
    (t : trace) :
  paginate (stateless server) request_for decode error_line fuel all page t
  = paginate (stateless server) request_for decode error_line fuel all page [].
Proof.
  revert all page t. induction fuel as [|fuel IH]; intros all page t; [reflexivity|].
  cbn [paginate].
  change (stateless server t (request_for page)) with (server (request_for page)).
  change (stateless server [] (request_for page)) with (server (request_for page)).
  set (rs := server (request_for page)).
  destruct (negb (status_code rs =? 200)%Z); [reflexivity|].
  destruct (decode (resp_json rs)) as [[|item items]| |]; try reflexivity.
  cbn [is_empty].
  rewrite (rate_limit_pause_history rs (t ++ _)),
          (rate_limit_pause_history rs ([] ++ _)).
  destruct (rate_limit_pause rs []) as [[[]| |] pause]; try reflexivity.
  rewrite (IH _ _ (t ++ _)), (IH _ _ ([] ++ _)). reflexivity.
Qed.

Lemma get_repos_for_org_stateless (server : request -> response) (fuel : nat)
    (org_name token : string) (t : trace) :
  get_repos_for_org (stateless server) fuel org_name token t
  = get_repos_for_org (stateless server) fuel org_name token [].
Proof.
  unfold get_repos_for_org. rewrite !get_repos_for_org_loop_paginate.
  apply paginate_stateless.
Qed.

Lemma get_collaborators_for_repo_stateless (server : request -> response)
    (fuel : nat) (org_name repo_name token : string) (t : trace) :
  get_collaborators_for_repo (stateless server) fuel org_name repo_name token t
  = get_collaborators_for_repo (stateless server) fuel org_name repo_name token [].
Proof.
  unfold get_collaborators_for_repo.
  rewrite !get_collaborators_for_repo_loop_paginate.
  apply paginate_stateless.
Qed.

Lemma get_user_email_stateless (server : request -> response)
    (username token : string) (t : trace) :
  get_user_email (stateless server) username token t
  = get_user_email (stateless server) username token [].
Proof.
  unfold get_user_email, bind, requests_get, lift, ret, stateless.
  set (profile := server _).
  destruct (status_code profile =? 200)%Z; [|reflexivity].
  cbn -[String.append].
  destruct (as_user (resp_json profile)) as [u| |]; try reflexivity.
  destruct (truthy (user_email u)); cbn -[String.append]; [reflexivity|].
  set (timeline := server _).
  destruct (status_code timeline =? 200)%Z; cbn -[String.append];
    [|reflexivity].
  destruct (as_events (resp_json timeline)) as [events| |]; try reflexivity.
  cbn -[String.append]. destruct (scan_events events _); reflexivity.
Qed.

Lemma get_organizations_stateless (server : request -> response)
    (token : string) (t : trace) :
  get_organizations (stateless server) token t
  = get_organizations (stateless server) token [].
Proof.
  unfold get_organizations, bind, requests_get, stateless.
  set (rs := server _).
  destruct (status_code rs =? 200)%Z; [reflexivity|].
  cbn -[String.append pretty]. unfold print_json, emit, raise.
  destruct (resp_json rs); reflexivity.
Qed.

(** *** Rows written by a computation *)

Lemma rows_from_app (rows : list (list string)) (o1 o2 : trace) :
  rows_from rows (o1 ++ o2) = rows_from (rows_from rows o1) o2.
Proof.
  revert rows. induction o1 as [|e o1 IH]; intros rows; [reflexivity|].
  destruct e; simpl; apply IH.
Qed.

Lemma rows_from_untouched (rows : list (list string)) (o : trace) :
  file_untouched o = true -> rows_from rows o = rows.
Proof.
  induction o as [|e o IH]; [reflexivity|]. destruct e; simpl; auto; discriminate.
Qed.

Lemma writes_print (line : string) (t : trace) : writes (print line) t [].
Proof.
  exists [EPrint line]. split; [reflexivity|]. intros rows. simpl.
  now rewrite app_nil_r.
Qed.

Lemma writes_writerow (row : list string) (t : trace) :
  writes (writerow row) t [row].
Proof. exists [EWriteRow row]. split; reflexivity. Qed.

Lemma writes_fetch {A} (m : M A) (k : A -> M unit) (t : trace) (a : A)
    (expected : list (list string)) :
  fst (m t) = Ok a ->
  file_untouched (snd (m t)) = true ->
  (forall t', writes (k a) t' expected) ->
  writes (bind m k) t expected.
Proof.
  intros Hfst Hsnd Hk. unfold writes, bind.
  destruct (m t) as [r o1]. simpl in Hfst, Hsnd. subst r.
  destruct (Hk (t ++ o1)) as (o2 & Hrun & Hrows). rewrite Hrun.
  exists (o1 ++ o2). split; [reflexivity|]. intros rows.
  now rewrite rows_from_app, (rows_from_untouched rows o1 Hsnd).
Qed.

Lemma writes_seq (m : M unit) (k : unit -> M unit) (t : trace)
    (e1 e2 : list (list string)) :
  writes m t e1 ->
  (forall t', writes (k tt) t' e2) ->
  writes (bind m k) t (e1 ++ e2).
Proof.
  intros (o1 & Hm & Hrows1) Hk. unfold writes, bind. rewrite Hm.
  destruct (Hk (t ++ o1)) as (o2 & Hrun & Hrows2). rewrite Hrun.
  exists (o1 ++ o2). split; [reflexivity|]. intros rows.
  now rewrite rows_from_app, Hrows1, Hrows2, app_assoc.
Qed.

Lemma writes_for_each {A} (xs : list A) (body : A -> M unit)
    (expected : A -> list (list string)) :
  Forall (fun x => forall t, writes (body x) t (expected x)) xs ->
  forall t, writes (for_each xs body) t (flat_map expected xs).
Proof.
  induction 1 as [|x xs Hx _ IH]; intros t.
  - exists []. split; [reflexivity|]. intros rows. simpl. now rewrite app_nil_r.
  - cbn [for_each flat_map]. apply writes_seq; [apply Hx|]. intros t'. apply IH.
Qed.

Lemma flat_map_one {A B} (f : A -> B) (l : list A) :
  flat_map (fun x => [f x]) l = map f l.
Proof. induction l as [|x l IH]; [reflexivity|]. simpl. now rewrite IH. Qed.

(** *** The blocks of the report on a stateless server *)

Section Report.

Variable server : request -> response.
Variable fuel : nat.
Variable token : string.

Lemma collaborator_block_writes (org_name repo_name : string)
    (c : collaborator) (email : string) :
  resolved_email server token (collab_login c) = Ok email ->
  forall t,
    writes (collaborator_block (stateless server) org_name repo_name token c) t
           [report_row server token org_name repo_name c].
Proof.
  intros Hemail t. unfold collaborator_block.
  apply writes_fetch with (a := email).
  - rewrite get_user_email_stateless. exact Hemail.
  - apply get_user_email_untouched.
  - intros t'. unfold report_row. rewrite Hemail. apply writes_writerow.
Qed.

Lemma repo_block_writes (org_name : string) (repo : repository) :
  repo_enumerable server fuel token org_name repo ->
  forall t,
    writes (repo_block (stateless server) fuel org_name token repo) t
           (repo_rows server fuel token org_name repo).
Proof.
  intros (collaborators & Hlisted & Hemails) t.
  unfold repo_block, repo_rows. rewrite Hlisted. cbn [value].
  replace (map (report_row server token org_name (repo_name repo)) collaborators)
    with ([] ++ flat_map (fun c => [report_row server token org_name
                                      (repo_name repo) c]) collaborators ++ [])
    by (rewrite app_nil_r; apply flat_map_one).
  apply writes_seq; [apply writes_print|]. intros t1.
  apply writes_fetch with (a := collaborators).
  - rewrite get_collaborators_for_repo_stateless. exact Hlisted.
  - apply get_collaborators_for_repo_untouched.
  - intros t2.
    apply writes_seq; [|intros t3; apply writes_print].
    apply writes_for_each.
    eapply Forall_impl; [exact Hemails|].
    intros c (email & Hemail). now apply collaborator_block_writes with email.
Qed.

Lemma org_block_writes (org_name : string) :
  org_enumerable server fuel token org_name ->
  forall t,
    writes (org_block (stateless server) fuel token org_name) t
           (org_rows server fuel token org_name).
Proof.
  intros (repos & Hlisted & Hrepos) t.
  unfold org_block, org_rows. rewrite Hlisted. cbn [value].
  change (flat_map (repo_rows server fuel token org_name) repos)
    with ([] ++ [] ++ flat_map (repo_rows server fuel token org_name) repos).
  apply writes_seq; [apply writes_print|]. intros t1.
  apply writes_fetch with (a := repos).
  - rewrite get_repos_for_org_stateless. exact Hlisted.
  - apply get_repos_for_org_untouched.
  - intros t2. apply writes_seq; [apply writes_print|]. intros t3.
    apply writes_for_each.
    eapply Forall_impl; [exact Hrepos|].
    intros repo Hrepo. now apply repo_block_writes.
Qed.

Lemma org_blocks_write (org_names : list string) :
  enumerable server fuel token org_names ->
  forall t,
    writes (for_each org_names (org_block (stateless server) fuel token)) t
           (report_rows server fuel token org_names).
Proof.
  intros Henum. apply writes_for_each.
  eapply Forall_impl; [exact Henum|].
  intros org_name Horg. now apply org_block_writes.
Qed.

End Report.

Lemma resolve_org_names_writes (server : request -> response) (fuel : nat)
    (token : string) (org_names : list string) (k : list string -> M unit)
    (expected : list (list string)) :
  (org_names = [] -> exists orgs, listed_orgs server token = Ok orgs) ->
  (forall t, writes (k (resolved_org_names server token org_names)) t expected) ->
  forall t,
    writes (bind (resolve_org_names (stateless server) org_names token) k) t
           expected.
Proof.
  intros Hlisted Hk t. unfold resolve_org_names, resolved_org_names in *.
  destruct org_names as [|org_name rest]; cbn [is_empty] in *.
  - destruct (Hlisted eq_refl) as (orgs & Horgs). rewrite Horgs in Hk.
    cbn [value] in Hk.
    apply writes_fetch with (a := map org_login orgs); [| |exact Hk].
    + unfold bind. rewrite get_organizations_stateless.
      unfold listed_orgs in Horgs.
      destruct (get_organizations (stateless server) token []) as [r o].
      simpl in Horgs. subst r. reflexivity.
    + unfold bind.
      pose proof (get_organizations_untouched (stateless server) token t) as Hu.
      destruct (get_organizations (stateless server) token t) as [[orgs'| |] o];
        simpl in Hu |- *; try exact Hu.
      now rewrite file_untouched_app, Hu.
  - apply writes_fetch with (a := org_name :: rest); [reflexivity|reflexivity|].
    exact Hk.
Qed.

(** The whole report on a stateless server: it succeeds, and the file
    holds the header and then the rows of the enumeration. *)
Lemma generate_report_stateless (server : request -> response) (fuel : nat)
    (token : string) (org_names : list string) (output_file : string)
    (t : trace) :
  (org_names = [] -> exists orgs, listed_orgs server token = Ok orgs) ->
  enumerable server fuel token (resolved_org_names server token org_names) ->
  fst (generate_report (stateless server) fuel org_names output_file token t)
  = Ok tt
  /\ file_rows
       (t ++ snd (generate_report (stateless server) fuel org_names output_file
                    token t))
     = header_row
       :: report_rows server fuel token
            (resolved_org_names server token org_names).
Proof.
  intros Hlisted Henum. rewrite generate_report_blocks.
  assert (Hbody : writes
            (writerow header_row;;
             let* names := resolve_org_names (stateless server) org_names token in
             for_each names (org_block (stateless server) fuel token))
            (t ++ [EOpen output_file])
            ([header_row]
             ++ report_rows server fuel token
                  (resolved_org_names server token org_names))).
  { apply writes_seq; [apply writes_writerow|]. intros t1.
    apply resolve_org_names_writes with (fuel := fuel); [exact Hlisted|].
    intros t2. now apply org_blocks_write. }
  destruct Hbody as (o & Hrun & Hrows).
  match goal with
  | |- fst (?m t) = _ /\ _ =>
      assert (Hgen : m t
                = (Ok tt,
                   (EOpen output_file :: o ++ [EClose output_file])
                   ++ [EPrint ("Report generated successfully: "
                               +:+ output_file)]))
        by (unfold bind at 1, with_open; rewrite Hrun; reflexivity);
      rewrite Hgen
  end.
  split; [reflexivity|]. cbn [snd].
  unfold file_rows. rewrite rows_from_app. cbn [rows_from app].
  rewrite !rows_from_app, Hrows. reflexivity.
Qed.

(** C10: in every run the first two effects are the opening of the
    output file in mode ['w'], which empties it, and the writing of the
    header row; every request comes after them.  When no organisation is
    given and the membership listing gives none (an empty list, or a
    status other than 200 with a body that is JSON), the run succeeds with
    a single request and the file holds the header row and nothing else.
    When the listing fails with a body that is not JSON the run ends with
    the exception of [response.json()], and the file still holds the
    header row and nothing else. *)
Theorem generate_report_header_first (net : oracle) (fuel : nat)
    (output_file token : string) (t : trace) :
  (forall org_names, exists rest,
      snd (generate_report net fuel org_names output_file token t)
      = EOpen output_file :: EWriteRow header_row :: rest)
  /\ (forall rs,
      net (t ++ [EOpen output_file; EWriteRow header_row]) (orgs_request token)
      = rs ->
      (status_code rs <> 200 /\ is_json (resp_json rs))
      \/ (status_code rs = 200 /\ resp_json rs = JOrgs []) ->
      fst (generate_report net fuel [] output_file token t) = Ok tt
      /\ requests_of (snd (generate_report net fuel [] output_file token t))
         = [orgs_request token]
      /\ file_rows (t ++ snd (generate_report net fuel [] output_file token t))
         = [header_row])
  /\ (forall rs text,
      net (t ++ [EOpen output_file; EWriteRow header_row]) (orgs_request token)
      = rs ->
      status_code rs <> 200 ->
      resp_json rs = NotJson text ->
      fst (generate_report net fuel [] output_file token t)
      = Raise JSONDecodeError
      /\ requests_of (snd (generate_report net fuel [] output_file token t))
         = [orgs_request token]
      /\ file_rows (t ++ snd (generate_report net fuel [] output_file token t))
         = [header_row]).
Proof.
  split; [|split].
  - intros org_names. rewrite generate_report_blocks.
    unfold bind at 1, with_open. unfold bind at 1, writerow, emit.
    match goal with
    | |- context [bind ?m ?k ?h] => destruct (bind m k h) as [[[]| |] o]
    end; eexists; reflexivity.
  - intros rs Hrs Hcases. rewrite generate_report_blocks.
    match goal with
    | |- fst (?m t) = _ /\ _ =>
        assert (Hgen : exists errors,
                   m t = (Ok tt,
                          [EOpen output_file; EWriteRow header_row;
                           EGet (orgs_request token) rs]
                          ++ errors
                          ++ [EPrint "Found 0 organizations: ";
                              EClose output_file;
                              EPrint ("Report generated successfully: "
                                      +:+ output_file)])
                   /\ file_untouched errors = true
                   /\ requests_of errors = [])
    end.
    { unfold bind at 1, with_open. unfold bind at 1, writerow, emit.
      unfold bind at 1, resolve_org_names. cbn [is_empty].
      unfold bind at 1, get_organizations. unfold bind at 1, requests_get.
      fold (orgs_request token). rewrite <- app_assoc. cbn [app].
      rewrite Hrs.
      destruct Hcases as [[Hstatus Hjson]|[Hstatus Hjson]].
      - apply Z.eqb_neq in Hstatus. rewrite Hstatus.
        exists [EPrint ("Error fetching organizations: "
                        +:+ pretty (status_code rs));
                EPrintJson (resp_json rs)].
        split; [|split; reflexivity].
        cbn -[String.append pretty]. unfold print_json, emit.
        destruct (resp_json rs); try contradiction; reflexivity.
      - rewrite Hstatus, Hjson. exists []. split; [reflexivity|].
        split; reflexivity. }
    destruct Hgen as (errors & Hgen & Huntouched & Hrequests). rewrite Hgen.
    split; [reflexivity|]. cbn [snd]. split.
    + cbn [app requests_of]. rewrite requests_of_app, Hrequests. reflexivity.
    + unfold file_rows. rewrite rows_from_app. cbn [app rows_from].
      rewrite rows_from_app, (rows_from_untouched _ errors Huntouched).
      reflexivity.
  - intros rs text Hrs Hstatus Hjson. rewrite generate_report_blocks.
    match goal with
    | |- fst (?m t) = _ /\ _ =>
        assert (Hgen : m t
                  = (Raise JSONDecodeError,
                     [EOpen output_file; EWriteRow header_row;
                      EGet (orgs_request token) rs;
                      EPrint ("Error fetching organizations: "
                              +:+ pretty (status_code rs));
                      EClose output_file]))
    end.
    { unfold bind at 1, with_open. unfold bind at 1, writerow, emit.
      unfold bind at 1, resolve_org_names. cbn [is_empty].
      unfold bind at 1, get_organizations. unfold bind at 1, requests_get.
      fold (orgs_request token). rewrite <- app_assoc. cbn [app].
      rewrite Hrs. apply Z.eqb_neq in Hstatus. rewrite Hstatus, Hjson.
      reflexivity. }
    rewrite Hgen. split; [reflexivity|]. cbn [snd]. split; [reflexivity|].
    unfold file_rows. rewrite rows_from_app. reflexivity.
Qed.

Lemma generate_report_header_first_witness :
  (fst (generate_report locked_out 3 [] "github_org_report.csv" "wrong" [])
   = Ok tt
   /\ requests_of
        (snd (generate_report locked_out 3 [] "github_org_report.csv" "wrong" []))
      = [orgs_request "wrong"]
   /\ file_rows
        ([] ++ snd (generate_report locked_out 3 [] "github_org_report.csv"
                      "wrong" []))
      = [["Organization"; "Repo Name"; "User Name"; "Email"; "Permission"]])
  /\ (fst (generate_report (stateless gateway_server) 3 []
             "github_org_report.csv" "secret" [])
      = Raise JSONDecodeError
      /\ requests_of
           (snd (generate_report (stateless gateway_server) 3 []
                   "github_org_report.csv" "secret" []))
         = [orgs_request "secret"]
      /\ file_rows
           ([] ++ snd (generate_report (stateless gateway_server) 3 []
                         "github_org_report.csv" "secret" []))
         = [["Organization"; "Repo Name"; "User Name"; "Email"; "Permission"]]).
Proof.
  split.
  - apply (proj1 (proj2 (generate_report_header_first locked_out 3
                           "github_org_report.csv" "wrong" []))
             (failure 401 "Bad credentials")).
    + reflexivity.
    + left. split; [discriminate|exact I].
  - apply (proj2 (proj2 (generate_report_header_first (stateless gateway_server)
                           3 "github_org_report.csv" "secret" []))
             bad_gateway "<html><body>502 Bad Gateway</body></html>").
    + reflexivity.
    + discriminate.
    + reflexivity.
Defined.

(** *** The report against any remote side *)

Lemma writes_bind_at {A} (m : M A) (k : A -> M unit) (t : trace) (a : A)
    (expected : list (list string)) :
  fst (m t) = Ok a ->
  file_untouched (snd (m t)) = true ->
  writes (k a) (after m t) expected ->
  writes (bind m k) t expected.
Proof.
  unfold after. intros Hfst Hsnd (o2 & Hrun & Hrows). unfold writes, bind.
  destruct (m t) as [r o1]. simpl in *. subst r. rewrite Hrun.
  exists (o1 ++ o2). split; [reflexivity|]. intros rows.
  now rewrite rows_from_app, (rows_from_untouched rows o1 Hsnd).
Qed.

Lemma writes_then (m : M unit) (k : unit -> M unit) (t : trace)
    (e1 e2 : list (list string)) :
  writes m t e1 ->
  writes (k tt) (after m t) e2 ->
  writes (bind m k) t (e1 ++ e2).
Proof.
  unfold after. intros (o1 & Hm & Hrows1) (o2 & Hrun & Hrows2).
  unfold writes, bind. rewrite Hm in *. simpl in Hrun. rewrite Hrun.
  exists (o1 ++ o2). split; [reflexivity|]. intros rows.
  now rewrite rows_from_app, Hrows1, Hrows2, app_assoc.
Qed.

Lemma collaborators_enumerated_writes (net : oracle)
    (org_name repo_name token : string) (entries : list collaborator_entry) :
  forall t,
    collaborators_enumerated net org_name repo_name token entries t ->
    writes (for_each (map fst entries)
              (collaborator_block net org_name repo_name token)) t
           (map (entry_row org_name repo_name) entries).
Proof.
  induction entries as [|entry rest IH]; intros t Henum.
  - exists []. split; [reflexivity|]. intros rows. simpl. now rewrite app_nil_r.
  - destruct Henum as [Hemail Hrest]. cbn [map for_each].
    change (entry_row org_name repo_name entry
            :: map (entry_row org_name repo_name) rest)
      with ([entry_row org_name repo_name entry]
            ++ map (entry_row org_name repo_name) rest).
    apply writes_then; [|apply IH, Hrest].
    unfold collaborator_block.
    apply writes_bind_at with (a := snd entry).
    + exact Hemail.
    + apply get_user_email_untouched.
    + apply writes_writerow.
Qed.

Lemma repos_enumerated_writes (net : oracle) (fuel : nat)
    (org_name token : string) (entries : list repo_entry) :
  forall t,
    repos_enumerated net fuel org_name token entries t ->
    writes (for_each (map fst entries) (repo_block net fuel org_name token)) t
           (flat_map (repo_entry_rows org_name) entries).
Proof.
  induction entries as [|entry rest IH]; intros t Henum.
  - exists []. split; [reflexivity|]. intros rows. simpl. now rewrite app_nil_r.
  - destruct Henum as (Hlisting & Hcollaborators & Hrest).
    cbn [map for_each flat_map].
    apply writes_then; [|apply IH, Hrest].
    unfold repo_block, repo_entry_rows.
    change (map (entry_row org_name (repo_name (fst entry))) (snd entry))
      with ([] ++ map (entry_row org_name (repo_name (fst entry))) (snd entry)).
    apply writes_then; [apply writes_print|].
    apply writes_bind_at with (a := map fst (snd entry)).
    + exact Hlisting.
    + apply get_collaborators_for_repo_untouched.
    + replace (map (entry_row org_name (repo_name (fst entry))) (snd entry))
        with (map (entry_row org_name (repo_name (fst entry))) (snd entry) ++ [])
        by apply app_nil_r.
      apply writes_then; [|apply writes_print].
      now apply collaborators_enumerated_writes.
Qed.

Lemma orgs_enumerated_writes (net : oracle) (fuel : nat) (token : string)
    (tree : list org_entry) :
  forall t,
    orgs_enumerated net fuel token tree t ->
    writes (for_each (map fst tree) (org_block net fuel token)) t
           (tree_rows tree).
Proof.
  unfold tree_rows.
  induction tree as [|entry rest IH]; intros t Henum.
  - exists []. split; [reflexivity|]. intros rows. simpl. now rewrite app_nil_r.
  - destruct Henum as (Hlisting & Hrepos & Hrest).
    cbn [map for_each flat_map].
    apply writes_then; [|apply IH, Hrest].
    unfold org_block, org_entry_rows.
    change (flat_map (repo_entry_rows (fst entry)) (snd entry))
      with ([] ++ [] ++ flat_map (repo_entry_rows (fst entry)) (snd entry)).
    apply writes_then; [apply writes_print|].
    apply writes_bind_at with (a := map fst (snd entry)).
    + exact Hlisting.
    + apply get_repos_for_org_untouched.
    + apply writes_then; [apply writes_print|].
      now apply repos_enumerated_writes.
Qed.

Lemma resolve_org_names_untouched (net : oracle) (org_names : list string)
    (token : string) (t : trace) :
  file_untouched (snd (resolve_org_names net org_names token t)) = true.
Proof.
  unfold resolve_org_names. destruct org_names; cbn [is_empty]; [|reflexivity].
  unfold bind.
  pose proof (get_organizations_untouched net token t) as Hu.
  destruct (get_organizations net token t) as [[orgs| |] o]; simpl in Hu |- *;
    try exact Hu.
  now rewrite file_untouched_app, Hu.
Qed.

(** A run that enumerates [tree] succeeds, and leaves in the file the
    header row and then the rows of [tree]. *)
Lemma generate_report_enumerated (net : oracle) (fuel : nat)
    (org_names : list string) (output_file token : string) (t : trace)
    (tree : list org_entry) :
  report_enumerated net fuel org_names output_file token t tree ->
  fst (generate_report net fuel org_names output_file token t) = Ok tt
  /\ file_rows (t ++ snd (generate_report net fuel org_names output_file token t))
     = header_row :: tree_rows tree.
Proof.
  intros [Hresolved Horgs]. rewrite generate_report_blocks.
  assert (Hbody : writes
            (writerow header_row;;
             let* names := resolve_org_names net org_names token in
             for_each names (org_block net fuel token))
            (t ++ [EOpen output_file])
            ([header_row] ++ tree_rows tree)).
  { apply writes_then; [apply writes_writerow|].
    replace (after (writerow header_row) (t ++ [EOpen output_file]))
      with (resolve_start output_file t)
      by (unfold after, resolve_start; simpl; now rewrite <- app_assoc).
    apply writes_bind_at with (a := map fst tree).
    - exact Hresolved.
    - apply resolve_org_names_untouched.
    - now apply orgs_enumerated_writes. }
  destruct Hbody as (o & Hrun & Hrows).
  match goal with
  | |- fst (?m t) = _ /\ _ =>
      assert (Hgen : m t
                = (Ok tt,
                   (EOpen output_file :: o ++ [EClose output_file])
                   ++ [EPrint ("Report generated successfully: "
                               +:+ output_file)]))
        by (unfold bind at 1, with_open; rewrite Hrun; reflexivity);
      rewrite Hgen
  end.
  split; [reflexivity|]. cbn [snd].
  unfold file_rows. rewrite rows_from_app. cbn [rows_from app].
  rewrite !rows_from_app, Hrows. reflexivity.
Qed.

(** *** What a run that returns has enumerated *)

Lemma bind_ok {A B} (m : M A) (k : A -> M B) (t : trace) (b : B) :
  fst (bind m k t) = Ok b ->
  exists a, fst (m t) = Ok a /\ fst (k a (after m t)) = Ok b.
Proof.
  unfold bind, after. destruct (m t) as [[a| |] o]; simpl; try discriminate.
  destruct (k a (t ++ o)) as [r o2] eqn:Hk. simpl. intros ->.
  exists a. split; [reflexivity|]. now rewrite Hk.
Qed.

Lemma with_open_outcome {A} (path : string) (body : M A) (t : trace) :
  fst (with_open path body t) = fst (body (t ++ [EOpen path])).
Proof.
  unfold with_open. now destruct (body (t ++ [EOpen path])) as [[a| |] o].
Qed.

Lemma collaborators_ok_enumerated (net : oracle)
    (org_name repo_name token : string) (collaborators : list collaborator) :
  forall t,
    fst (for_each collaborators
           (collaborator_block net org_name repo_name token) t) = Ok tt ->
    exists entries,
      map fst entries = collaborators
      /\ collaborators_enumerated net org_name repo_name token entries t.
Proof.
  induction collaborators as [|c rest IH]; intros t Hok.
  - exists []. split; [reflexivity|exact I].
  - cbn [for_each] in Hok. apply bind_ok in Hok.
    destruct Hok as ([] & Hblock & Hrest).
    unfold collaborator_block in Hblock at 1. apply bind_ok in Hblock.
    destruct Hblock as (email & Hemail & _).
    destruct (IH _ Hrest) as (entries & Hentries & Henum).
    exists ((c, email) :: entries). split; [simpl; now rewrite Hentries|].
    split; assumption.
Qed.

Lemma repos_ok_enumerated (net : oracle) (fuel : nat)
    (org_name token : string) (repos : list repository) :
  forall t,
    fst (for_each repos (repo_block net fuel org_name token) t) = Ok tt ->
    exists entries,
      map fst entries = repos
      /\ repos_enumerated net fuel org_name token entries t.
Proof.
  induction repos as [|r rest IH]; intros t Hok.
  - exists []. split; [reflexivity|exact I].
  - cbn [for_each] in Hok. apply bind_ok in Hok.
    destruct Hok as ([] & Hblock & Hrest).
    unfold repo_block in Hblock at 1. apply bind_ok in Hblock.
    destruct Hblock as ([] & _ & Hblock). apply bind_ok in Hblock.
    destruct Hblock as (collaborators & Hlisting & Hblock).
    apply bind_ok in Hblock. destruct Hblock as ([] & Hblock & _).
    destruct (collaborators_ok_enumerated _ _ _ _ _ _ Hblock)
      as (inner & Hinner & Hcollaborators).
    destruct (IH _ Hrest) as (entries & Hentries & Henum).
    exists ((r, inner) :: entries). split; [simpl; now rewrite Hentries|].
    cbn [repos_enumerated fst snd]. rewrite Hinner.
    repeat split; assumption.
Qed.

Lemma orgs_ok_enumerated (net : oracle) (fuel : nat) (token : string)
    (org_names : list string) :
  forall t,
    fst (for_each org_names (org_block net fuel token) t) = Ok tt ->
    exists tree,
      map fst tree = org_names /\ orgs_enumerated net fuel token tree t.
Proof.
  induction org_names as [|org_name rest IH]; intros t Hok.
  - exists []. split; [reflexivity|exact I].
  - cbn [for_each] in Hok. apply bind_ok in Hok.
    destruct Hok as ([] & Hblock & Hrest).
    unfold org_block in Hblock at 1. apply bind_ok in Hblock.
    destruct Hblock as ([] & _ & Hblock). apply bind_ok in Hblock.
    destruct Hblock as (repos & Hlisting & Hblock).
    apply bind_ok in Hblock. destruct Hblock as ([] & _ & Hblock).
    destruct (repos_ok_enumerated _ _ _ _ _ _ Hblock)
      as (inner & Hinner & Hrepos).
    destruct (IH _ Hrest) as (tree & Htree & Henum).
    exists ((org_name, inner) :: tree). split; [simpl; now rewrite Htree|].
    cbn [orgs_enumerated fst snd]. rewrite Hinner.
    repeat split; assumption.
Qed.

(** A run that returns has enumerated a tree. *)
Lemma generate_report_ok_enumerated (net : oracle) (fuel : nat)
    (org_names : list string) (output_file token : string) (t : trace) :
  fst (generate_report net fuel org_names output_file token t) = Ok tt ->
  exists tree,
    report_enumerated net fuel org_names output_file token t tree.
Proof.
  rewrite generate_report_blocks. intros Hok. apply bind_ok in Hok.
  destruct Hok as ([] & Hbody & _). rewrite with_open_outcome in Hbody.
  apply bind_ok in Hbody. destruct Hbody as ([] & _ & Hbody).
  replace (after (writerow header_row) (t ++ [EOpen output_file]))
    with (resolve_start output_file t) in Hbody
    by (unfold after, resolve_start; simpl; now rewrite <- app_assoc).
  apply bind_ok in Hbody. destruct Hbody as (names & Hnames & Hbody).
  destruct (orgs_ok_enumerated _ _ _ _ _ Hbody) as (tree & Htree & Henum).
  exists tree. split; [now rewrite Htree|exact Henum].
Qed.

(** *** What a run has written when it ends *)

Lemma rows_from_opened (path : string) (t o : trace) :
  forall rows, rows_from rows (t ++ EOpen path :: o) = rows_from [] o.
Proof.
  induction t as [|e t IH]; intros rows; [reflexivity|].
  destruct e; cbn [app rows_from]; apply IH.
Qed.

Lemma appends_untouched {A} (m : M A) (t : trace) :
  file_untouched (snd (m t)) = true -> appends m t [].
Proof.
  intros Hsnd rows. now rewrite (rows_from_untouched rows _ Hsnd), app_nil_r.
Qed.

Lemma appends_print (line : string) (t : trace) : appends (print line) t [].
Proof. now apply appends_untouched. Qed.

Lemma appends_bind_ok {A B} (m : M A) (k : A -> M B) (t : trace) (a : A)
    (e1 e2 : list (list string)) :
  fst (m t) = Ok a ->
  appends m t e1 ->
  appends (k a) (after m t) e2 ->
  appends (bind m k) t (e1 ++ e2).
Proof.
  unfold appends, after, bind. intros Hfst H1 H2 rows.
  destruct (m t) as [r o1]. simpl in *. subst r.
  specialize (H2 (rows ++ e1)).
  destruct (k a (t ++ o1)) as [r o2]. simpl in *.
  now rewrite rows_from_app, H1, H2, app_assoc.
Qed.

Lemma appends_bind_stuck {A B} (m : M A) (k : A -> M B) (t : trace)
    (more : list (list string)) :
  stuck m t -> appends m t more -> appends (bind m k) t more.
Proof.
  unfold appends, stuck, bind. intros Hstuck Hm rows.
  destruct (m t) as [[a| |] o]; simpl in *; try apply Hm.
  now destruct (Hstuck a).
Qed.

Lemma bind_outcome {A B} (m : M A) (k : A -> M B) (t : trace) (a : A) :
  fst (m t) = Ok a -> fst (bind m k t) = fst (k a (after m t)).
Proof.
  unfold after, bind. destruct (m t) as [r o]. simpl. intros ->.
  now destruct (k a (t ++ o)).
Qed.

Lemma stuck_bind {A B} (m : M A) (k : A -> M B) (t : trace) :
  stuck m t -> stuck (bind m k) t.
Proof.
  intros Hstuck b Hb. apply bind_ok in Hb. destruct Hb as (a & Ha & _).
  exact (Hstuck a Ha).
Qed.

Lemma stuck_bind_at {A B} (m : M A) (k : A -> M B) (t : trace) (a : A) :
  fst (m t) = Ok a -> stuck (k a) (after m t) -> stuck (bind m k) t.
Proof.
  intros Ha Hstuck b Hb. rewrite (bind_outcome m k t a Ha) in Hb.
  exact (Hstuck b Hb).
Qed.

Lemma returns_or_stuck {A} (m : M A) (t : trace) :
  (exists a, fst (m t) = Ok a) \/ stuck m t.
Proof.
  unfold stuck. destruct (fst (m t)) as [a| |]; [left; eauto|right..];
    intros a; discriminate.
Qed.

Lemma collaborators_progress (net : oracle)
    (org_name repo_name token : string) (collaborators : list collaborator) :
  forall t,
    exists entries others,
      collaborators = map fst entries ++ others
      /\ collaborators_enumerated net org_name repo_name token entries t
      /\ appends (for_each collaborators
                    (collaborator_block net org_name repo_name token)) t
           (map (entry_row org_name repo_name) entries).
Proof.
  induction collaborators as [|c rest IH]; intros t.
  - exists [], []. split; [reflexivity|]. split; [exact I|].
    now apply appends_untouched.
  - cbn [for_each].
    destruct (returns_or_stuck
                (get_user_email net (collab_login c) token) t)
      as [[email Hemail]|Hstuck].
    + destruct (IH (after (collaborator_block net org_name repo_name token c) t))
        as (entries & others & Hrest & Henum & Hrows).
      exists ((c, email) :: entries), others.
      split; [simpl; now rewrite Hrest|]. split; [split; assumption|].
      change (map (entry_row org_name repo_name) ((c, email) :: entries))
        with ([entry_row org_name repo_name (c, email)]
              ++ map (entry_row org_name repo_name) entries).
      apply appends_bind_ok with (a := tt); [| |exact Hrows].
      * unfold collaborator_block.
        now rewrite (bind_outcome _ _ _ _ Hemail).
      * unfold collaborator_block.
        change [entry_row org_name repo_name (c, email)]
          with ([] ++ [entry_row org_name repo_name (c, email)]).
        apply appends_bind_ok with (a := email); [exact Hemail| |].
        -- apply appends_untouched, get_user_email_untouched.
        -- intros rows. reflexivity.
    + exists [], (c :: rest). split; [reflexivity|]. split; [exact I|].
      cbn [map flat_map].
      apply appends_bind_stuck.
      * unfold collaborator_block. now apply stuck_bind.
      * unfold collaborator_block. apply appends_bind_stuck; [exact Hstuck|].
        apply appends_untouched, get_user_email_untouched.
Qed.

Lemma repos_progress (net : oracle) (fuel : nat) (org_name token : string)
    (repos : list repository) :
  forall t,
    exists entries others,
      repos = map fst entries ++ others
      /\ repos_begun net fuel org_name token entries t
      /\ appends (for_each repos (repo_block net fuel org_name token)) t
           (flat_map (repo_entry_rows org_name) entries).
Proof.
  induction repos as [|r rest IH]; intros t.
  - exists [], []. split; [reflexivity|]. split; [exact I|].
    now apply appends_untouched.
  - cbn [for_each].
    set (name := repo_name r).
    set (t1 := after (print ("  Processing repository: " +:+ name)) t).
    destruct (returns_or_stuck
                (get_collaborators_for_repo net fuel org_name name token) t1)
      as [[collaborators Hlisting]|Hstuck].
    + destruct (collaborators_progress net org_name name token collaborators
                  (after (get_collaborators_for_repo net fuel org_name name token)
                     t1))
        as (inner & inner_others & Hinner & Hcollaborators & Hinner_rows).
      assert (Hblock_rows :
                appends (repo_block net fuel org_name token r) t
                  (map (entry_row org_name name) inner)).
      { unfold repo_block. fold name.
        change (map (entry_row org_name name) inner)
          with ([] ++ [] ++ map (entry_row org_name name) inner).
        apply appends_bind_ok with (a := tt);
          [reflexivity|apply appends_print|]. fold t1.
        apply appends_bind_ok with (a := collaborators); [exact Hlisting| |].
        { apply appends_untouched, get_collaborators_for_repo_untouched. }
        destruct (returns_or_stuck
                    (for_each collaborators
                       (collaborator_block net org_name name token))
                    (after (get_collaborators_for_repo net fuel org_name name
                              token) t1))
          as [[[] Hloop]|Hloop].
        - rewrite <- (app_nil_r (map _ inner)).
          apply appends_bind_ok with (a := tt);
            [exact Hloop|exact Hinner_rows|apply appends_print].
        - now apply appends_bind_stuck. }
      destruct (returns_or_stuck (repo_block net fuel org_name token r) t)
        as [[[] Hblock]|Hblock].
      * destruct (IH (after (repo_block net fuel org_name token r) t))
          as (entries & others & Hrest & Henum & Hrows).
        exists ((r, inner) :: entries), others.
        split; [simpl; now rewrite Hrest|]. split.
        -- cbn [repos_begun fst snd]. fold name. fold t1.
           split; [exists inner_others; now rewrite Hlisting, Hinner|].
           split; assumption.
        -- cbn [flat_map]. unfold repo_entry_rows at 1. cbn [fst snd].
           fold name.
           now apply appends_bind_ok with (a := tt).
      * exists [(r, inner)], rest. split; [reflexivity|]. split.
        -- cbn [repos_begun fst snd]. fold name. fold t1.
           split; [exists inner_others; now rewrite Hlisting, Hinner|].
           split; [assumption|exact I].
        -- cbn [flat_map]. unfold repo_entry_rows. cbn [fst snd]. fold name.
           rewrite app_nil_r. now apply appends_bind_stuck.
    + exists [], (r :: rest). split; [reflexivity|]. split; [exact I|].
      cbn [map flat_map].
      assert (Hblock : stuck (repo_block net fuel org_name token r) t).
      { unfold repo_block. fold name.
        apply stuck_bind_at with (a := tt); [reflexivity|]. fold t1.
        now apply stuck_bind. }
      apply appends_bind_stuck; [exact Hblock|].
      unfold repo_block. fold name.
      change (@nil (list string)) with ([] ++ @nil (list string)).
      apply appends_bind_ok with (a := tt);
        [reflexivity|apply appends_print|]. fold t1.
      apply appends_bind_stuck; [exact Hstuck|].
      apply appends_untouched, get_collaborators_for_repo_untouched.
Qed.

Lemma orgs_progress (net : oracle) (fuel : nat) (token : string)
    (org_names : list string) :
  forall t,
    exists tree others,
      org_names = map fst tree ++ others
      /\ orgs_begun net fuel token tree t
      /\ appends (for_each org_names (org_block net fuel token)) t
           (tree_rows tree).
Proof.
  unfold tree_rows.
  induction org_names as [|org_name rest IH]; intros t.
  - exists [], []. split; [reflexivity|]. split; [exact I|].
    now apply appends_untouched.
  - cbn [for_each].
    set (t1 := listing_start org_name t).
    destruct (returns_or_stuck (get_repos_for_org net fuel org_name token) t1)
      as [[repos Hlisting]|Hstuck].
    + destruct (repos_progress net fuel org_name token repos
                  (repos_start net fuel token org_name repos t))
        as (inner & inner_others & Hinner & Hrepos & Hinner_rows).
      assert (Hblock_rows :
                appends (org_block net fuel token org_name) t
                  (flat_map (repo_entry_rows org_name) inner)).
      { unfold org_block.
        change (flat_map (repo_entry_rows org_name) inner)
          with ([] ++ [] ++ [] ++ flat_map (repo_entry_rows org_name) inner).
        apply appends_bind_ok with (a := tt);
          [reflexivity|apply appends_print|].
        apply appends_bind_ok with (a := repos); [exact Hlisting| |].
        { apply appends_untouched, get_repos_for_org_untouched. }
        apply appends_bind_ok with (a := tt);
          [reflexivity|apply appends_print|].
        exact Hinner_rows. }
      destruct (returns_or_stuck (org_block net fuel token org_name) t)
        as [[[] Hblock]|Hblock].
      * destruct (IH (after (org_block net fuel token org_name) t))
          as (tree & others & Hrest & Henum & Hrows).
        exists ((org_name, inner) :: tree), others.
        split; [simpl; now rewrite Hrest|]. split.
        -- cbn [orgs_begun fst snd]. fold t1.
           split; [|assumption].
           exists inner_others. rewrite <- Hinner. split; assumption.
        -- cbn [flat_map]. unfold org_entry_rows at 1. cbn [fst snd].
           now apply appends_bind_ok with (a := tt).
      * exists [(org_name, inner)], rest. split; [reflexivity|]. split.
        -- cbn [orgs_begun fst snd]. fold t1.
           split; [|exact I].
           exists inner_others. rewrite <- Hinner. split; assumption.
        -- cbn [flat_map]. unfold org_entry_rows. cbn [fst snd].
           rewrite app_nil_r. now apply appends_bind_stuck.
    + exists [], (org_name :: rest). split; [reflexivity|]. split; [exact I|].
      cbn [map flat_map].
      assert (Hblock : stuck (org_block net fuel token org_name) t).
      { unfold org_block.
        apply stuck_bind_at with (a := tt); [reflexivity|].
        now apply stuck_bind. }
      apply appends_bind_stuck; [exact Hblock|].
      unfold org_block.
      change (@nil (list string)) with ([] ++ @nil (list string)).
      apply appends_bind_ok with (a := tt);
        [reflexivity|apply appends_print|].
      apply appends_bind_stuck; [exact Hstuck|].
      apply appends_untouched, get_repos_for_org_untouched.
Qed.

(** The file after a run holds what the body of the [with] block wrote. *)
Lemma generate_report_file_rows (net : oracle) (fuel : nat)
    (org_names : list string) (output_file token : string) (t : trace) :
  file_rows (t ++ snd (generate_report net fuel org_names output_file token t))
  = rows_from []
      (snd ((writerow header_row;;
             let* names := resolve_org_names net org_names token in
             for_each names (org_block net fuel token))
              (t ++ [EOpen output_file]))).
Proof.
  rewrite generate_report_blocks. unfold bind at 1, with_open.
  match goal with
  | |- context [bind ?m ?k ?h] => destruct (bind m k h) as [[[]| |] o]
  end; unfold print, emit; cbn [snd app]; unfold file_rows;
    rewrite rows_from_opened, ?rows_from_app; reflexivity.
Qed.

(** However a run ends, the file holds the header row and then the rows
    of what the run has enumerated. *)
Lemma generate_report_progress (net : oracle) (fuel : nat)
    (org_names : list string) (output_file token : string) (t : trace) :
  exists tree,
    report_begun net fuel org_names output_file token t tree
    /\ file_rows
         (t ++ snd (generate_report net fuel org_names output_file token t))
       = header_row :: tree_rows tree.
Proof.
  rewrite generate_report_file_rows.
  assert (Hstart : after (writerow header_row) (t ++ [EOpen output_file])
                   = resolve_start output_file t)
    by (unfold after, resolve_start; simpl; now rewrite <- app_assoc).
  destruct (returns_or_stuck (resolve_org_names net org_names token)
              (resolve_start output_file t)) as [[names Hnames]|Hstuck].
  - destruct (orgs_progress net fuel token names
                (after (resolve_org_names net org_names token)
                   (resolve_start output_file t)))
      as (tree & others & Htree & Henum & Hrows).
    exists tree. split.
    + right. exists others. rewrite <- Htree. split; assumption.
    + change (header_row :: tree_rows tree)
        with ([] ++ [header_row] ++ [] ++ tree_rows tree).
      apply appends_bind_ok with (a := tt); [reflexivity| |].
      { intros rows. reflexivity. }
      rewrite Hstart.
      apply appends_bind_ok with (a := names); [exact Hnames| |exact Hrows].
      apply appends_untouched, resolve_org_names_untouched.
  - exists []. split; [now left|].
    change (header_row :: tree_rows [])
      with ([] ++ [header_row] ++ @nil (list string)).
    apply appends_bind_ok with (a := tt); [reflexivity| |].
    { intros rows. reflexivity. }
    rewrite Hstart.
    apply appends_bind_stuck; [exact Hstuck|].
    apply appends_untouched, resolve_org_names_untouched.
Qed.

(** C7: in every run, however it ends and whatever the remote side, the
    file holds the header row and then exactly one row per (organisation,
    repository, collaborator) the run has gone through: organisations in
    the order of the run, the repositories of each in the order of its
    listing, the collaborators of each repository in the order of its
    listing, with the email looked up at that moment.  A run returns
    exactly when its listings and lookups give, at the moment the run
    issues them, a whole tree of organisations, repositories and
    collaborators; the rows are then those of the whole tree.  (A run
    that does not return has ended with an exception that nothing
    catches, and has gone through a part of what its listings gave.) *)
Theorem report_rows_in_nesting_order (net : oracle) (fuel : nat)
    (org_names : list string) (output_file token : string) (t : trace) :
  (exists tree,
      report_begun net fuel org_names output_file token t tree
      /\ file_rows
           (t ++ snd (generate_report net fuel org_names output_file token t))
         = ["Organization"; "Repo Name"; "User Name"; "Email"; "Permission"]
           :: flat_map (fun org =>
               flat_map (fun repo =>
                 map (fun c =>
                        [ fst org; repo_name (fst repo); collab_login (fst c);
                          snd c;
                          get_permission_level (collab_permissions (fst c)) ])
                     (snd repo))
                 (snd org))
               tree)
  /\ (fst (generate_report net fuel org_names output_file token t) = Ok tt
      <-> exists tree,
            report_enumerated net fuel org_names output_file token t tree)
  /\ (forall tree,
      report_enumerated net fuel org_names output_file token t tree ->
      file_rows
        (t ++ snd (generate_report net fuel org_names output_file token t))
      = ["Organization"; "Repo Name"; "User Name"; "Email"; "Permission"]
        :: flat_map (fun org =>
             flat_map (fun repo =>
               map (fun c =>
                      [ fst org; repo_name (fst repo); collab_login (fst c);
                        snd c;
                        get_permission_level (collab_permissions (fst c)) ])
                   (snd repo))
               (snd org))
             tree).
Proof.
  split; [apply generate_report_progress|]. split.
  - split; [apply generate_report_ok_enumerated|].
    intros [tree Henum].
    exact (proj1 (generate_report_enumerated net fuel org_names output_file
                    token t tree Henum)).
  - intros tree Henum.
    exact (proj2 (generate_report_enumerated net fuel org_names output_file
                    token t tree Henum)).
Qed.

Lemma report_rows_in_nesting_order_witness :
  (fst (generate_report demo 3 [] "github_org_report.csv" "secret" []) = Ok tt
   /\ file_rows
        ([] ++ snd (generate_report demo 3 [] "github_org_report.csv" "secret" []))
      = [ ["Organization"; "Repo Name"; "User Name"; "Email"; "Permission"];
          ["acme"; "widgets"; "alice"; "alice@example.com"; "Write"];
          ["acme"; "widgets"; "bob"; "bob@example.com"; "Read"];
          ["acme"; "gadgets"; "carol"; "1234+carol@users.noreply.github.com";
           "Admin"];
          ["corp"; "tools"; "dave"; "Not available"; "Triage"] ])
  /\ (fst (generate_report moody 3 ["duo"] "github_org_report.csv" "secret" [])
      = Ok tt
      /\ file_rows
           ([] ++ snd (generate_report moody 3 ["duo"] "github_org_report.csv"
                         "secret" []))
         = [ ["Organization"; "Repo Name"; "User Name"; "Email"; "Permission"];
             ["duo"; "left"; "alice"; "alice@example.com"; "Write"];
             ["duo"; "right"; "alice"; "Not available"; "Write"] ]).
Proof.
  assert (Hdemo : report_enumerated demo 3 [] "github_org_report.csv" "secret" []
            [ ("acme",
               [ (repo "widgets",
                  [ (member "alice" ["push"; "pull"], "alice@example.com");
                    (member "bob" ["pull"], "bob@example.com") ]);
                 (repo "gadgets",
                  [ (member "carol" ["admin"; "push"; "pull"],
                     "1234+carol@users.noreply.github.com") ]) ]);
              ("corp",
               [ (repo "tools",
                  [ (member "dave" ["triage"; "pull"], "Not available") ]) ]) ]).
  { unfold report_enumerated.
    cbn [orgs_enumerated repos_enumerated collaborators_enumerated fst snd].
    repeat split; vm_compute; reflexivity. }
  assert (Hmoody : report_enumerated moody 3 ["duo"] "github_org_report.csv"
            "secret" []
            [ ("duo",
               [ (repo "left",
                  [ (member "alice" ["push"], "alice@example.com") ]);
                 (repo "right",
                  [ (member "alice" ["push"], "Not available") ]) ]) ]).
  { unfold report_enumerated.
    cbn [orgs_enumerated repos_enumerated collaborators_enumerated fst snd].
    repeat split; vm_compute; reflexivity. }
  split; split.
  - apply (proj2 (proj1 (proj2 (report_rows_in_nesting_order demo 3 []
                                  "github_org_report.csv" "secret" [])))).
    eexists. exact Hdemo.
  - exact (proj2 (proj2 (report_rows_in_nesting_order demo 3 []
                           "github_org_report.csv" "secret" [])) _ Hdemo).
  - apply (proj2 (proj1 (proj2 (report_rows_in_nesting_order moody 3 ["duo"]
                                  "github_org_report.csv" "secret" [])))).
    eexists. exact Hmoody.
  - exact (proj2 (proj2 (report_rows_in_nesting_order moody 3 ["duo"]
                           "github_org_report.csv" "secret" [])) _ Hmoody).
Defined.
(** *** A run that an exception ends *)









(** * Further properties of the script *)

(** ** Invariants of the effects *)

Lemma emits_ret {A} (Q : effect -> Prop) (a : A) : emits Q (ret a).
Proof. intros t. constructor. Qed.

Lemma emits_lift {A} (Q : effect -> Prop) (r : outcome A) : emits Q (lift r).
Proof. intros t. constructor. Qed.

Lemma emits_timeout {A} (Q : effect -> Prop) : emits Q (@timeout A).
Proof. intros t. constructor. Qed.

Lemma emits_emit (Q : effect -> Prop) (e : effect) : Q e -> emits Q (emit e).
Proof. intros He t. repeat constructor. exact He. Qed.

Lemma emits_bind {A B} (Q : effect -> Prop) (m : M A) (k : A -> M B) :
  emits Q m -> (forall a, emits Q (k a)) -> emits Q (bind m k).
Proof.
  intros Hm Hk t. unfold bind. specialize (Hm t).
  destruct (m t) as [[a| |] o1]; simpl in *; try exact Hm.
  specialize (Hk a (t ++ o1)). destruct (k a (t ++ o1)) as [r o2].
  simpl in *. apply Forall_app. split; assumption.
Qed.

Lemma emits_requests_get (Q : effect -> Prop) (net : oracle) (rq : request) :
  (forall rs, Q (EGet rq rs)) ->
  emits Q (requests_get net (req_url rq) (req_headers rq) (req_params rq)).
Proof. intros HQ t. destruct rq. repeat constructor. apply HQ. Qed.

Lemma emits_for_each {A} (Q : effect -> Prop) (xs : list A) (body : A -> M unit) :
  (forall x, emits Q (body x)) -> emits Q (for_each xs body).
Proof.
  intros Hbody. induction xs as [|x xs IH]; [apply emits_ret|].
  cbn [for_each]. apply emits_bind; [apply Hbody|]. intros _. exact IH.
Qed.

Lemma emits_with_open {A} (Q : effect -> Prop) (path : string) (body : M A) :
  Q (EOpen path) -> Q (EClose path) -> emits Q body ->
  emits Q (with_open path body).
Proof.
  intros Hopen Hclose Hbody t. unfold with_open.
  specialize (Hbody (t ++ [EOpen path])).
  destruct (body (t ++ [EOpen path])) as [[a| |] o]; simpl in *;
    constructor; try assumption; apply Forall_app; split; try assumption;
    repeat constructor; assumption.
Qed.

Lemma emits_rate_limit_pause (Q : effect -> Prop) (rs : response) :
  (forall line, Q (EPrint line)) -> Q (ESleep 60) ->
  emits Q (rate_limit_pause rs).
Proof.
  intros Hprint Hsleep t. rewrite rate_limit_pause_history.
  destruct (rate_limit_pause_cases rs) as [H|[H|H]]; rewrite H;
    repeat constructor; auto.
Qed.

Lemma emits_print_json (Q : effect -> Prop) (body : json) :
  (forall body, Q (EPrintJson body)) -> emits Q (print_json body).
Proof.
  intros HQ t. unfold print_json, raise, emit.
  destruct body; repeat constructor; apply HQ.
Qed.

Section EffectInvariant.

Variable Q : effect -> Prop.
Variable net : oracle.
Variable token : string.

Hypothesis Q_print : forall line, Q (EPrint line).
Hypothesis Q_print_json : forall body, Q (EPrintJson body).
Hypothesis Q_sleep : Q (ESleep 60).
Hypothesis Q_get : forall rq rs, data_request token rq -> Q (EGet rq rs).

Lemma get_organizations_emits :
  (forall rs, Q (EGet (orgs_request token) rs)) ->
  emits Q (get_organizations net token).
Proof.
  intros Q_orgs. unfold get_organizations.
  apply emits_bind.
  - apply (emits_requests_get Q net (orgs_request token)). exact Q_orgs.
  - intros rs. destruct (negb _).
    + apply emits_bind; [apply emits_emit, Q_print|]. intros _.
      apply emits_bind; [apply emits_print_json, Q_print_json|]. intros _.
      apply emits_ret.
    + apply emits_lift.
Qed.

Lemma get_repos_for_org_loop_emits (fuel : nat) (org_name : string)
    (all : list repository) (page : Z) :
  1 <= page ->
  emits Q (get_repos_for_org_loop net fuel org_name (get_headers token) all page).
Proof.
  revert all page. induction fuel as [|fuel IH]; intros all page Hpage;
    [apply emits_timeout|].
  cbn [get_repos_for_org_loop]. apply emits_bind.
  - apply (emits_requests_get Q net (repos_request org_name token page)).
    intros rs. apply Q_get. left. eauto.
  - intros rs. destruct (negb _).
    + apply emits_bind; [apply emits_emit, Q_print|]. intros _.
      apply emits_bind; [apply emits_print_json, Q_print_json|]. intros _.
      apply emits_ret.
    + apply emits_bind; [apply emits_lift|]. intros repos.
      destruct (is_empty repos); [apply emits_ret|].
      apply emits_bind; [now apply emits_rate_limit_pause|]. intros _.
      apply IH. lia.
Qed.

Lemma get_collaborators_for_repo_loop_emits (fuel : nat)
    (org_name repo_name : string) (all : list collaborator) (page : Z) :
  1 <= page ->
  emits Q (get_collaborators_for_repo_loop net fuel org_name repo_name
             (get_headers token) all page).
Proof.
  revert all page. induction fuel as [|fuel IH]; intros all page Hpage;
    [apply emits_timeout|].
  cbn [get_collaborators_for_repo_loop]. apply emits_bind.
  - apply (emits_requests_get Q net
             (collaborators_request org_name repo_name token page)).
    intros rs. apply Q_get. right; left. eauto.
  - intros rs. destruct (negb _).
    + apply emits_bind; [apply emits_emit, Q_print|]. intros _.
      apply emits_bind; [apply emits_print_json, Q_print_json|]. intros _.
      apply emits_ret.
    + apply emits_bind; [apply emits_lift|]. intros collaborators.
      destruct (is_empty collaborators); [apply emits_ret|].
      apply emits_bind; [now apply emits_rate_limit_pause|]. intros _.
      apply IH. lia.
Qed.

Lemma get_user_email_emits (username : string) :
  emits Q (get_user_email net username token).
Proof.
  unfold get_user_email. apply emits_bind.
  - apply (emits_requests_get Q net (profile_request username token)).
    intros rs. apply Q_get. do 2 right; left. eauto.
  - intros profile. destruct (negb _); [apply emits_ret|].
    apply emits_bind; [apply emits_lift|]. intros user_data.
    apply emits_bind.
    + destruct (negb (truthy _)); [|apply emits_ret].
      apply emits_bind.
      * apply (emits_requests_get Q net (events_request username token)).
        intros rs. apply Q_get. do 3 right. eauto.
      * intros timeline. destruct (_ =? _)%Z; [|apply emits_ret].
        apply emits_bind; [apply emits_lift|]. intros events. apply emits_ret.
    + intros [address|email]; apply emits_ret.
Qed.

Variable output_file : string.

Hypothesis Q_open : Q (EOpen output_file).
Hypothesis Q_close : Q (EClose output_file).
Hypothesis Q_row : forall row, length row = 5%nat -> Q (EWriteRow row).

Lemma generate_report_emits (fuel : nat) (org_names : list string) :
  (org_names = [] -> forall rs, Q (EGet (orgs_request token) rs)) ->
  emits Q (generate_report net fuel org_names output_file token).
Proof.
  intros Q_orgs. unfold generate_report. apply emits_bind.
  - apply emits_with_open; try assumption.
    apply emits_bind; [apply emits_emit, Q_row; reflexivity|]. intros _.
    apply emits_bind.
    + destruct org_names as [|org_name rest]; cbn [is_empty]; [|apply emits_ret].
      apply emits_bind; [apply get_organizations_emits; auto|]. intros orgs.
      apply emits_bind; [apply emits_emit, Q_print|]. intros _. apply emits_ret.
    + intros names. apply emits_for_each. intros org_name.
      apply emits_bind; [apply emits_emit, Q_print|]. intros _.
      apply emits_bind;
        [apply get_repos_for_org_loop_emits; lia|]. intros repos.
      apply emits_bind; [apply emits_emit, Q_print|]. intros _.
      apply emits_for_each. intros repo.
      apply emits_bind; [apply emits_emit, Q_print|]. intros _.
      apply emits_bind;
        [apply get_collaborators_for_repo_loop_emits; lia|].
      intros collaborators.
      apply emits_bind; [|intros _; apply emits_emit, Q_print].
      apply emits_for_each. intros c.
      apply emits_bind; [apply get_user_email_emits|]. intros email.
      apply emits_emit, Q_row. reflexivity.
  - intros _. apply emits_emit, Q_print.
Qed.

End EffectInvariant.


Lemma Forall_requests_of (P : request -> Prop) (o : trace) :
  Forall (fun e => match e with EGet rq _ => P rq | _ => True end) o ->
  Forall P (requests_of o).
Proof.
  induction 1 as [|e o He _ IH]; [constructor|].
  destruct e; simpl; auto.
Qed.

Lemma Forall_rows_written (P : list string -> Prop) (o : trace) :
  Forall (fun e => match e with EWriteRow row => P row | _ => True end) o ->
  Forall P (rows_written o).
Proof.
  induction 1 as [|e o He _ IH]; [constructor|].
  destruct e; simpl; auto.
Qed.

Lemma Forall_sleeps (P : Z -> Prop) (o : trace) :
  Forall (fun e => match e with ESleep s => P s | _ => True end) o ->
  Forall P (sleeps o).
Proof.
  induction 1 as [|e o He _ IH]; [constructor|].
  destruct e; simpl; auto.
Qed.

Lemma Forall_files_touched (P : string -> Prop) (o : trace) :
  Forall (fun e => match e with EOpen p | EClose p => P p | _ => True end) o ->
  Forall P (files_touched o).
Proof.
  induction 1 as [|e o He _ IH]; [constructor|].
  destruct e; simpl; auto.
Qed.

(** X1: every request of a run, whatever the remote side answers and
    however the run ends, carries the two headers of [get_headers] with
    the token of the run, and goes to a URL under
    [https://api.github.com/]. *)
Theorem generate_report_requests_authenticated (net : oracle) (fuel : nat)
    (org_names : list string) (output_file token : string) (t : trace) :
  Forall (fun rq =>
            req_headers rq = [ ("Authorization", "token " +:+ token);
                               ("Accept", "application/vnd.github.v3+json") ]
            /\ String.prefix "https://api.github.com/" (req_url rq) = true)
         (requests_of
            (snd (generate_report net fuel org_names output_file token t))).
Proof.
  apply Forall_requests_of.
  apply (generate_report_emits _ net token); try (intros; exact I).
  - intros rq rs
      [(org & page & _ & ->)|[(org & repo & page & _ & ->)
         |[(user & ->)|(user & ->)]]];
      split; reflexivity.
  - intros _ rs. split; reflexivity.
Qed.

(** X2: every request of a run either has no query parameter, or asks
    for a page numbered 1 or more with [per_page] 100 (and, for
    collaborators, [affiliation] all). *)
Theorem generate_report_requests_paging (net : oracle) (fuel : nat)
    (org_names : list string) (output_file token : string) (t : trace) :
  Forall (fun rq => paging_params (req_params rq))
         (requests_of
            (snd (generate_report net fuel org_names output_file token t))).
Proof.
  apply Forall_requests_of.
  apply (generate_report_emits _ net token); try (intros; exact I).
  - intros rq rs
      [(org & page & Hpage & ->)|[(org & repo & page & Hpage & ->)
         |[(user & ->)|(user & ->)]]]; unfold paging_params; simpl; eauto 6.
  - intros _ rs. now left.
Qed.

(** X3: every row a run writes, the header row included, has exactly
    five fields. *)
Theorem generate_report_rows_have_five_fields (net : oracle) (fuel : nat)
    (org_names : list string) (output_file token : string) (t : trace) :
  Forall (fun row => length row = 5%nat)
         (rows_written
            (snd (generate_report net fuel org_names output_file token t))).
Proof.
  apply Forall_rows_written.
  apply (generate_report_emits _ net token); try (intros; exact I).
  intros row Hrow. exact Hrow.
Qed.

(** X4: a run never sleeps for anything but 60 seconds. *)
Theorem generate_report_sleeps_60 (net : oracle) (fuel : nat)
    (org_names : list string) (output_file token : string) (t : trace) :
  Forall (fun seconds => seconds = 60)
         (sleeps (snd (generate_report net fuel org_names output_file token t))).
Proof.
  apply Forall_sleeps.
  apply (generate_report_emits _ net token); try (intros; exact I).
  reflexivity.
Qed.

(** X5: a run opens and closes no file but its output file. *)
Theorem generate_report_touches_output_only (net : oracle) (fuel : nat)
    (org_names : list string) (output_file token : string) (t : trace) :
  Forall (fun path => path = output_file)
         (files_touched
            (snd (generate_report net fuel org_names output_file token t))).
Proof.
  apply Forall_files_touched.
  apply (generate_report_emits _ net token); try (intros; exact I);
    reflexivity.
Qed.

(** ** The organisation listing *)

(** X6: the membership listing is one request.  On a status other than
    200 the status line is printed; then, when the body is JSON, the body
    is printed and the empty list returned, and when it is not,
    [response.json()] raises and nothing is returned.  A status 200 gives
    the organisations of the body, all of them and in their order, with
    no second request however many there are. *)
Theorem get_organizations_outcome (net : oracle) (token : string) (t : trace)
    (rs : response) :
  net t (orgs_request token) = rs ->
  (status_code rs <> 200 -> is_json (resp_json rs) ->
   get_organizations net token t
   = (Ok [],
      [EGet (orgs_request token) rs;
       EPrint ("Error fetching organizations: " +:+ pretty (status_code rs));
       EPrintJson (resp_json rs)]))
  /\ (forall text,
      status_code rs <> 200 -> resp_json rs = NotJson text ->
      get_organizations net token t
      = (Raise JSONDecodeError,
         [EGet (orgs_request token) rs;
          EPrint ("Error fetching organizations: " +:+ pretty (status_code rs))]))
  /\ (forall orgs,
      status_code rs = 200 ->
      resp_json rs = JOrgs orgs ->
      get_organizations net token t = (Ok orgs, [EGet (orgs_request token) rs])).
Proof.
  intros Hrs. unfold get_organizations, bind, requests_get.
  fold (orgs_request token). rewrite Hrs. split; [|split].
  - intros Hstatus Hjson. apply Z.eqb_neq in Hstatus. rewrite Hstatus.
    cbn -[String.append pretty]. unfold print_json, emit.
    destruct (resp_json rs); try contradiction; reflexivity.
  - intros text Hstatus Hjson. apply Z.eqb_neq in Hstatus.
    rewrite Hstatus, Hjson. reflexivity.
  - intros orgs Hstatus Hjson. rewrite Hstatus, Hjson. reflexivity.
Qed.

Lemma get_organizations_outcome_witness :
  get_organizations locked_out "wrong" []
  = (Ok [],
     [EGet (orgs_request "wrong") (failure 401 "Bad credentials");
      EPrint "Error fetching organizations: 401";
      EPrintJson (JMessage "Bad credentials")])
  /\ get_organizations (stateless gateway_server) "secret" []
     = (Raise JSONDecodeError,
        [EGet (orgs_request "secret") bad_gateway;
         EPrint "Error fetching organizations: 502"])
  /\ get_organizations demo "secret" []
     = (Ok [ {| org_login := "acme" |}; {| org_login := "corp" |} ],
        [EGet (orgs_request "secret")
              (ok (JOrgs [ {| org_login := "acme" |}; {| org_login := "corp" |} ]))]).
Proof.
  split; [|split].
  - apply (proj1 (get_organizations_outcome locked_out "wrong" []
                    (failure 401 "Bad credentials") eq_refl)).
    + discriminate.
    + exact I.
  - apply (proj1 (proj2 (get_organizations_outcome (stateless gateway_server)
                           "secret" [] bad_gateway eq_refl))
             "<html><body>502 Bad Gateway</body></html>").
    + discriminate.
    + reflexivity.
  - apply (proj2 (proj2 (get_organizations_outcome demo "secret" []
                    (ok (JOrgs [ {| org_login := "acme" |};
                                 {| org_login := "corp" |} ])) eq_refl))).
    + reflexivity.
    + reflexivity.
Defined.
(** ** More on the email resolver *)

(** X7: when the profile has no email and the timeline request is not
    answered with 200, the resolver gives the sentinel, after exactly the
    two requests. *)
Theorem get_user_email_timeline_failure (net : oracle) (username token : string)
    (t : trace) (profile timeline : response) (email : option string) :
  net t (profile_request username token) = profile ->
  status_code profile = 200 ->
  resp_json profile = JUser {| user_email := email |} ->
  truthy email = false ->
  net (t ++ [EGet (profile_request username token) profile])
      (events_request username token) = timeline ->
  status_code timeline <> 200 ->
  get_user_email net username token t
  = (Ok "Not available",
     [EGet (profile_request username token) profile;
      EGet (events_request username token) timeline]).
Proof.
  intros Hp Hs Hj He Ht Hts.
  unfold get_user_email, bind, requests_get, lift, ret.
  unfold profile_request, events_request in *.
  rewrite Hp, Hs, Hj. cbn -[String.append]. rewrite He. cbn -[String.append].
  rewrite app_nil_r, Ht. apply Z.eqb_neq in Hts. rewrite Hts.
  cbn -[String.append].
  destruct email as [[|c s]|]; simpl in He; try discriminate; reflexivity.
Qed.

Lemma get_user_email_timeline_failure_witness :
  get_user_email (stateless private_timeline_server) "heidi" "secret" []
  = (Ok "Not available",
     [EGet (profile_request "heidi" "secret")
           (ok (JUser {| user_email := None |}));
      EGet (events_request "heidi" "secret") (failure 404 "Not Found")]).
Proof.
  apply (get_user_email_timeline_failure (stateless private_timeline_server)
           "heidi" "secret" [] (ok (JUser {| user_email := None |}))
           (failure 404 "Not Found") None).
  - reflexivity.
  - reflexivity.
  - reflexivity.
  - reflexivity.
  - reflexivity.
  - discriminate.
Defined.

Lemma email_or_not_available_nonempty (email : option string) :
  email_or_not_available email <> "".
Proof. destruct email as [[|c s]|]; discriminate. Qed.

Lemma commit_addresses_nonempty (commits : list commit) :
  Forall (fun a => a <> "") (commit_addresses commits).
Proof.
  unfold commit_addresses. induction commits as [|commit rest IH]; [constructor|].
  simpl. destruct (commit_author commit) as [[[[|c s]|]]|]; simpl;
    try exact IH.
  constructor; [discriminate|exact IH].
Qed.

Lemma timeline_addresses_nonempty (events : list gh_event) :
  Forall (fun a => a <> "") (timeline_addresses events).
Proof.
  unfold timeline_addresses. induction events as [|event rest IH]; [constructor|].
  simpl. destruct (String.eqb _ _); [|exact IH].
  destruct (event_payload event) as [payload|]; [|exact IH].
  apply Forall_app. split; [apply commit_addresses_nonempty|exact IH].
Qed.

Lemma scan_events_nonempty (events : list gh_event) (email : option string)
    (address : string) :
  scan_events events email = Return address -> address <> "".
Proof.
  rewrite scan_events_spec.
  destruct (find _ (timeline_addresses events)) as [a|] eqn:Hfind; [|discriminate].
  intros [= <-]. apply find_some in Hfind. destruct Hfind as [Hin _].
  pose proof (timeline_addresses_nonempty events) as Hall.
  rewrite Forall_forall in Hall. apply Hall. now apply list_elem_of_In.
Qed.

(** X8: whenever the resolver answers, its answer is not the empty
    string: the Email column of a row is never blank. *)
Theorem get_user_email_never_blank (net : oracle) (username token : string)
    (t : trace) (answer : string) :
  fst (get_user_email net username token t) = Ok answer ->
  answer <> "".
Proof.
  unfold get_user_email, bind, requests_get, lift, ret.
  set (profile := net t _).
  destruct (status_code profile =? 200)%Z; cbn -[String.append];
    [|intros [= <-]; discriminate].
  destruct (as_user (resp_json profile)) as [u| |]; try discriminate.
  destruct (truthy (user_email u)) eqn:Htruthy; cbn -[String.append].
  - intros [= <-]. apply email_or_not_available_nonempty.
  - set (timeline := net _ _).
    destruct (status_code timeline =? 200)%Z; cbn -[String.append].
    + destruct (as_events (resp_json timeline)) as [events| |]; try discriminate.
      cbn -[String.append].
      destruct (scan_events events (user_email u)) as [address|email] eqn:Hscan;
        cbn -[String.append]; intros [= <-].
      * now apply scan_events_nonempty in Hscan.
      * apply email_or_not_available_nonempty.
    + intros [= <-]. apply email_or_not_available_nonempty.
Qed.

Lemma get_user_email_never_blank_witness :
  fst (get_user_email demo "bob" "secret" []) = Ok "bob@example.com"
  /\ "bob@example.com" <> "".
Proof.
  split; [reflexivity|].
  apply (get_user_email_never_blank demo "bob" "secret" [] "bob@example.com").
  reflexivity.
Defined.

(** X9: a lookup issues the profile request and then at most the timeline
    request: one or two requests, never more, the timeline being read as
    the single document the remote side returns. *)
Theorem get_user_email_at_most_two_requests (net : oracle)
    (username token : string) (t : trace) :
  requests_of (snd (get_user_email net username token t))
  = [profile_request username token]
  \/ requests_of (snd (get_user_email net username token t))
     = [profile_request username token; events_request username token].
Proof.
  unfold get_user_email, bind, requests_get, lift, ret.
  fold (profile_request username token). fold (events_request username token).
  set (profile := net t _).
  destruct (status_code profile =? 200)%Z; cbn -[String.append profile_request
                                                 events_request];
    [|now left].
  destruct (as_user (resp_json profile)) as [u| |]; try (now left).
  destruct (truthy (user_email u)); cbn -[String.append profile_request
                                          events_request]; [now left|].
  set (timeline := net _ _). right.
  destruct (status_code timeline =? 200)%Z;
    cbn -[String.append profile_request events_request]; [|reflexivity].
  destruct (as_events (resp_json timeline)) as [events| |]; try reflexivity.
  cbn -[String.append profile_request events_request].
  destruct (scan_events events _); reflexivity.
Qed.

Lemma get_user_email_first_unmasked_witness :
  get_user_email demo "bob" "secret" []
  = (Ok "bob@example.com",
     [EGet (profile_request "bob" "secret") (ok (JUser {| user_email := None |}));
      EGet (events_request "bob" "secret")
           (ok (JEvents [ watch_event;
                          push_event ["41898282+bob@users.noreply.github.com"];
                          push_event ["bob@example.com"; "robert@example.org"] ]))]).
Proof.
  apply (get_user_email_first_unmasked demo "bob" "secret" []
           (ok (JUser {| user_email := None |}))
           (ok (JEvents [ watch_event;
                          push_event ["41898282+bob@users.noreply.github.com"];
                          push_event ["bob@example.com"; "robert@example.org"] ]))
           None
           [ watch_event;
             push_event ["41898282+bob@users.noreply.github.com"];
             push_event ["bob@example.com"; "robert@example.org"] ]
           ["41898282+bob@users.noreply.github.com"] ["robert@example.org"]
           "bob@example.com").
  - reflexivity.
  - reflexivity.
  - reflexivity.
  - reflexivity.
  - reflexivity.
  - reflexivity.
  - reflexivity.
  - reflexivity.
  - repeat constructor.
  - reflexivity.
Defined.

Lemma get_user_email_no_address_witness :
  get_user_email demo "erin" "secret" []
  = (Ok "Not available",
     [EGet (profile_request "erin" "secret") (ok (JUser {| user_email := Some "" |}));
      EGet (events_request "erin" "secret") (ok (JEvents [watch_event]))]).
Proof.
  apply (get_user_email_no_address demo "erin" "secret" []
           (ok (JUser {| user_email := Some "" |}))
           (ok (JEvents [watch_event])) (Some "") [watch_event]).
  - reflexivity.
  - reflexivity.
  - reflexivity.
  - reflexivity.
  - reflexivity.
  - reflexivity.
  - reflexivity.
  - reflexivity.
Defined.

Lemma get_user_email_all_masked_witness :
  get_user_email demo "carol" "secret" []
  = (Ok "1234+carol@users.noreply.github.com",
     [EGet (profile_request "carol" "secret") (ok (JUser {| user_email := None |}));
      EGet (events_request "carol" "secret")
           (ok (JEvents [push_event ["1234+carol@users.noreply.github.com"]]))]).
Proof.
  apply (get_user_email_all_masked demo "carol" "secret" []
           (ok (JUser {| user_email := None |}))
           (ok (JEvents [push_event ["1234+carol@users.noreply.github.com"]]))
           None [push_event ["1234+carol@users.noreply.github.com"]]
           [] "1234+carol@users.noreply.github.com").
  - reflexivity.
  - reflexivity.
  - reflexivity.
  - reflexivity.
  - reflexivity.
  - reflexivity.
  - reflexivity.
  - reflexivity.
  - repeat constructor.
  - discriminate.
Defined.

(** ** More on the permission classifier *)

(** X13: the level is always one of the six labels. *)
Theorem get_permission_level_range (permissions : gmap string bool) :
  In (get_permission_level permissions)
     ["Admin"; "Maintain"; "Write"; "Triage"; "Read"; "Unknown"].
Proof.
  unfold get_permission_level.
  destruct (flag permissions "admin"); [simpl; tauto|].
  destruct (flag permissions "maintain"); [simpl; tauto|].
  destruct (flag permissions "push"); [simpl; tauto|].
  destruct (flag permissions "triage"); [simpl; tauto|].
  destruct (flag permissions "pull"); simpl; tauto.
Qed.

(** X14: the level depends on the five flags only, a flag that is
    missing counting as one that is false: two flag sets that agree on
    admin, maintain, push, triage and pull in that sense get the same
    level, whatever other keys they hold. *)
Theorem get_permission_level_five_flags (p q : gmap string bool) :
  Forall (fun name => default false (p !! name) = default false (q !! name))
         ["admin"; "maintain"; "push"; "triage"; "pull"] ->
  get_permission_level p = get_permission_level q.
Proof.
  intros H. unfold get_permission_level, flag.
  rewrite List.Forall_forall in H.
  rewrite (H "admin"), (H "maintain"), (H "push"), (H "triage"), (H "pull")
    by (simpl; tauto).
  reflexivity.
Qed.

Lemma get_permission_level_five_flags_witness :
  get_permission_level {[ "push" := true; "pull" := false; "owner" := true ]}
  = get_permission_level {[ "push" := true ]}.
Proof.
  apply (get_permission_level_five_flags
           {[ "push" := true; "pull" := false; "owner" := true ]}
           {[ "push" := true ]}).
  repeat constructor.
Defined.

(** ** More on pagination *)

Lemma paginate_bad_header {A} (net : oracle) (request_for : Z -> request)
    (decode : json -> outcome (list A)) (error_line : Z -> string)
    (fuel : nat) (all : list A) (page : Z) (t : trace)
    (rs : response) (items : list A) (remaining : string) :
  net t (request_for page) = rs ->
  status_code rs = 200 ->
  decode (resp_json rs) = Ok items ->
  items <> [] ->
  header "X-RateLimit-Remaining" rs = Some remaining ->
  py_int remaining = Raise ValueError ->
  paginate net request_for decode error_line (S fuel) all page t
  = (Raise ValueError, [EGet (request_for page) rs]).
Proof.
  intros Hrs Hstatus Hdecode Hitems Hheader Hint.
  cbn [paginate]. rewrite Hrs, Hstatus, Hdecode.
  destruct items as [|item items]; [congruence|].
  cbn [Z.eqb Pos.eqb negb is_empty].
  unfold rate_limit_pause. rewrite Hheader. unfold bind, lift. rewrite Hint.
  reflexivity.
Qed.

(** X15: a rate-limit header that [int] cannot read makes either
    paginated fetch end with ValueError right after the page that carried
    it: unlike a status other than 200, this is not absorbed, and the
    items of that page and of the pages before are not returned. *)
Theorem pagination_raises_on_bad_header (net : oracle) (token : string)
    (fuel : nat) (t : trace) (rs : response) (remaining : string) :
  status_code rs = 200 ->
  header "X-RateLimit-Remaining" rs = Some remaining ->
  py_int remaining = Raise ValueError ->
  (forall org_name all page items,
      net t (repos_request org_name token page) = rs ->
      resp_json rs = JRepos items ->
      items <> [] ->
      get_repos_for_org_loop net (S fuel) org_name (get_headers token) all page t
      = (Raise ValueError, [EGet (repos_request org_name token page) rs]))
  /\ (forall org_name repo_name all page items,
      net t (collaborators_request org_name repo_name token page) = rs ->
      resp_json rs = JCollaborators items ->
      items <> [] ->
      get_collaborators_for_repo_loop net (S fuel) org_name repo_name
        (get_headers token) all page t
      = (Raise ValueError,
         [EGet (collaborators_request org_name repo_name token page) rs])).
Proof.
  intros Hstatus Hheader Hint. split.
  - intros org_name all page items Hrs Hjson Hitems.
    rewrite get_repos_for_org_loop_paginate.
    apply (paginate_bad_header net _ as_repos _ fuel all page t rs items
             remaining); try assumption.
    rewrite Hjson. reflexivity.
  - intros org_name repo_name all page items Hrs Hjson Hitems.
    rewrite get_collaborators_for_repo_loop_paginate.
    apply (paginate_bad_header net _ as_collaborators _ fuel all page t rs
             items remaining); try assumption.
    rewrite Hjson. reflexivity.
Qed.

Lemma pagination_raises_on_bad_header_witness :
  get_repos_for_org (stateless garbled_server) 3 "garbled" "secret" []
  = (Raise ValueError,
     [EGet (repos_request "garbled" "secret" 1)
           (ok_remaining (JRepos [repo "one"]) "soon")])
  /\ get_collaborators_for_repo (stateless garbled_server) 3 "garbled" "one"
       "secret" []
     = (Raise ValueError,
        [EGet (collaborators_request "garbled" "one" "secret" 1)
              (ok_remaining (JCollaborators [member "ivan" ["pull"]]) "")]).
Proof.
  split.
  - apply (proj1 (pagination_raises_on_bad_header (stateless garbled_server)
                    "secret" 2 [] (ok_remaining (JRepos [repo "one"]) "soon")
                    "soon" eq_refl eq_refl eq_refl)
             "garbled" [] 1 [repo "one"]).
    + reflexivity.
    + reflexivity.
    + discriminate.
  - apply (proj2 (pagination_raises_on_bad_header (stateless garbled_server)
                    "secret" 2 []
                    (ok_remaining (JCollaborators [member "ivan" ["pull"]]) "")
                    "" eq_refl eq_refl eq_refl)
             "garbled" "one" [] 1 [member "ivan" ["pull"]]).
    + reflexivity.
    + reflexivity.
    + discriminate.
Defined.

Lemma paginate_no_header {A} (net : oracle) (request_for : Z -> request)
    (decode : json -> outcome (list A)) (error_line : Z -> string)
    (fuel : nat) (all : list A) (page : Z) (t : trace)
    (rs : response) (items : list A) :
  net t (request_for page) = rs ->
  status_code rs = 200 ->
  decode (resp_json rs) = Ok items ->
  items <> [] ->
  header "X-RateLimit-Remaining" rs = None ->
  exists r rest,
    paginate net request_for decode error_line (S (S fuel)) all page t
    = (r, EGet (request_for page) rs
          :: EGet (request_for (page + 1))
                  (net (t ++ [EGet (request_for page) rs]) (request_for (page + 1)))
          :: rest).
Proof.
  intros Hrs Hstatus Hdecode Hitems Hheader.
  destruct (paginate_starts net request_for decode error_line fuel
              (all ++ items) (page + 1)
              (t ++ [EGet (request_for page) rs])) as (r & rest & Hnext).
  exists r, rest. remember (S fuel) as fuel1 eqn:Hfuel1.
  cbn [paginate]. rewrite Hrs, Hstatus, Hdecode.
  destruct items as [|item items]; [congruence|].
  cbn [Z.eqb Pos.eqb negb is_empty].
  unfold rate_limit_pause. rewrite Hheader. unfold ret. subst fuel1.
  rewrite Hnext. reflexivity.
Qed.

(** X16: after a page with items that carries no rate-limit header, both
    paginated fetches issue the request for the next page at once: no
    notice, no sleep. *)
Theorem pagination_no_header_no_pause (net : oracle) (token : string)
    (fuel : nat) (t : trace) (rs : response) :
  status_code rs = 200 ->
  header "X-RateLimit-Remaining" rs = None ->
  (forall org_name all page items,
      net t (repos_request org_name token page) = rs ->
      resp_json rs = JRepos items ->
      items <> [] ->
      exists r rest,
        get_repos_for_org_loop net (S (S fuel)) org_name (get_headers token)
          all page t
        = (r, EGet (repos_request org_name token page) rs
              :: EGet (repos_request org_name token (page + 1))
                   (net (t ++ [EGet (repos_request org_name token page) rs])
                        (repos_request org_name token (page + 1)))
              :: rest))
  /\ (forall org_name repo_name all page items,
      net t (collaborators_request org_name repo_name token page) = rs ->
      resp_json rs = JCollaborators items ->
      items <> [] ->
      exists r rest,
        get_collaborators_for_repo_loop net (S (S fuel)) org_name repo_name
          (get_headers token) all page t
        = (r, EGet (collaborators_request org_name repo_name token page) rs
              :: EGet (collaborators_request org_name repo_name token (page + 1))
                   (net (t ++ [EGet (collaborators_request org_name repo_name
                                       token page) rs])
                        (collaborators_request org_name repo_name token (page + 1)))
              :: rest)).
Proof.
  intros Hstatus Hheader. split.
  - intros org_name all page items Hrs Hjson Hitems.
    rewrite get_repos_for_org_loop_paginate.
    apply (paginate_no_header net (repos_request org_name token) as_repos _
             fuel all page t rs items); try assumption.
    rewrite Hjson. reflexivity.
  - intros org_name repo_name all page items Hrs Hjson Hitems.
    rewrite get_collaborators_for_repo_loop_paginate.
    apply (paginate_no_header net
             (collaborators_request org_name repo_name token)
             as_collaborators _ fuel all page t rs items); try assumption.
    rewrite Hjson. reflexivity.
Qed.

Lemma pagination_no_header_no_pause_witness :
  (exists r rest,
      get_repos_for_org_loop demo 2 "acme" (get_headers "secret") [] 1 []
      = (r, EGet (repos_request "acme" "secret" 1)
                 (ok (JRepos [repo "widgets"; repo "gadgets"]))
            :: EGet (repos_request "acme" "secret" 2) (ok (JRepos []))
            :: rest))
  /\ (exists r rest,
      get_collaborators_for_repo_loop demo 2 "acme" "gadgets"
        (get_headers "secret") [] 1 []
      = (r, EGet (collaborators_request "acme" "gadgets" "secret" 1)
                 (ok (JCollaborators [member "carol" ["admin"; "push"; "pull"]]))
            :: EGet (collaborators_request "acme" "gadgets" "secret" 2)
                    (ok (JCollaborators []))
            :: rest)).
Proof.
  split.
  - apply (proj1 (pagination_no_header_no_pause demo "secret" 0 []
                    (ok (JRepos [repo "widgets"; repo "gadgets"]))
                    eq_refl eq_refl)
             "acme" [] 1 [repo "widgets"; repo "gadgets"]).
    + reflexivity.
    + reflexivity.
    + discriminate.
  - apply (proj2 (pagination_no_header_no_pause demo "secret" 0 []
                    (ok (JCollaborators [member "carol" ["admin"; "push"; "pull"]]))
                    eq_refl eq_refl)
             "acme" "gadgets" [] 1 [member "carol" ["admin"; "push"; "pull"]]).
    + reflexivity.
    + reflexivity.
    + discriminate.
Defined.


Lemma paginate_endless {A} (net : oracle) (request_for : Z -> request)
    (decode : json -> outcome (list A)) (error_line : Z -> string) :
  (forall t page, exists items,
      full_page decode (net t (request_for page)) items) ->
  forall (fuel : nat) (all : list A) (page : Z) (t : trace),
    fst (paginate net request_for decode error_line fuel all page t) = Timeout
    /\ requests_of (snd (paginate net request_for decode error_line fuel all
                           page t))
       = map request_for (map (fun i => page + Z.of_nat i) (seq 0 fuel)).
Proof.
  intros Hfull. induction fuel as [|fuel IH]; intros all page t;
    [split; reflexivity|].
  cbn [paginate]. set (rs := net t (request_for page)).
  destruct (Hfull t page) as (items & Hstatus & Hdecode & Hitems & Hpause).
  fold rs in Hstatus, Hdecode, Hpause. rewrite Hstatus, Hdecode.
  destruct items as [|item items]; [congruence|].
  cbn [Z.eqb Pos.eqb negb is_empty].
  rewrite rate_limit_pause_history.
  pose proof (requests_of_turn (request_for page) rs) as Hturn.
  unfold turn_effects in Hturn.
  destruct (rate_limit_pause rs []) as [r pause]. simpl in Hpause, Hturn.
  subst r.
  destruct (IH (all ++ item :: items) (page + 1)
               (t ++ EGet (request_for page) rs :: pause)) as [Hout Hreqs].
  destruct (paginate _ _ _ _ _ _ _ _) as [r o]. simpl in *.
  split; [exact Hout|].
  injection Hturn as Hpause_reqs.
  rewrite requests_of_app, Hpause_reqs, Hreqs. simpl.
  rewrite Z.add_0_r. f_equal. rewrite <- seq_shift, !map_map.
  apply map_ext. intros i. f_equal. lia.
Qed.

(** X18: neither paginated fetch has a bound on the number of pages: on
    a remote side that answers every page with items, the loop is still
    running after any number of turns, having issued one request per turn
    for the pages 1, 2, 3, ... *)
Theorem pagination_has_no_page_bound (net : oracle) (token : string)
    (fuel : nat) (t : trace) :
  (forall org_name,
      (forall t' page, exists items,
          full_page as_repos (net t' (repos_request org_name token page)) items) ->
      fst (get_repos_for_org net fuel org_name token t) = Timeout
      /\ requests_of (snd (get_repos_for_org net fuel org_name token t))
         = map (repos_request org_name token) (page_numbers fuel))
  /\ (forall org_name repo_name,
      (forall t' page, exists items,
          full_page as_collaborators
            (net t' (collaborators_request org_name repo_name token page)) items) ->
      fst (get_collaborators_for_repo net fuel org_name repo_name token t)
      = Timeout
      /\ requests_of
           (snd (get_collaborators_for_repo net fuel org_name repo_name token t))
         = map (collaborators_request org_name repo_name token)
             (page_numbers fuel)).
Proof.
  assert (Hpages : map (fun i => 1 + Z.of_nat i) (seq 0 fuel) = page_numbers fuel).
  { unfold page_numbers. rewrite <- seq_shift, map_map.
    apply map_ext. intros i. lia. }
  split.
  - intros org_name Hfull. unfold get_repos_for_org.
    rewrite get_repos_for_org_loop_paginate, <- Hpages.
    now apply paginate_endless.
  - intros org_name repo_name Hfull. unfold get_collaborators_for_repo.
    rewrite get_collaborators_for_repo_loop_paginate, <- Hpages.
    now apply paginate_endless.
Qed.

Lemma pagination_has_no_page_bound_witness :
  (fst (get_repos_for_org (stateless endless_server) 50 "loop" "secret" [])
   = Timeout
   /\ requests_of
        (snd (get_repos_for_org (stateless endless_server) 50 "loop" "secret" []))
      = map (repos_request "loop" "secret") (page_numbers 50))
  /\ (fst (get_collaborators_for_repo (stateless endless_server) 50 "loop"
             "again" "secret" []) = Timeout
      /\ requests_of
           (snd (get_collaborators_for_repo (stateless endless_server) 50
                   "loop" "again" "secret" []))
         = map (collaborators_request "loop" "again" "secret") (page_numbers 50)).
Proof.
  destruct (pagination_has_no_page_bound (stateless endless_server) "secret"
              50 []) as [Hrepos Hcollaborators].
  split.
  - apply Hrepos. intros t' page. exists [repo "again"].
    repeat split; discriminate.
  - apply Hcollaborators. intros t' page. exists [member "judy" ["pull"]].
    repeat split; discriminate.
Defined.

(** ** More on the report *)

(** X19: when a run succeeds, its last two effects are the closing of
    the output file and the line that reports success; when a run ends
    with an exception, the output file is closed all the same, this is
    its last effect, and no success line follows. *)
Theorem generate_report_ending (net : oracle) (fuel : nat)
    (org_names : list string) (output_file token : string) (t : trace) :
  (fst (generate_report net fuel org_names output_file token t) = Ok tt ->
   exists o,
     snd (generate_report net fuel org_names output_file token t)
     = o ++ [EClose output_file;
             EPrint ("Report generated successfully: " +:+ output_file)])
  /\ (forall e,
      fst (generate_report net fuel org_names output_file token t) = Raise e ->
      exists o,
        snd (generate_report net fuel org_names output_file token t)
        = o ++ [EClose output_file]).
Proof.
  remember (generate_report net fuel org_names output_file token t) as run
    eqn:Hrun.
  rewrite generate_report_blocks in Hrun. unfold bind at 1, with_open in Hrun.
  match type of Hrun with
  | context [bind ?m ?k ?h] => destruct (bind m k h) as [[[]| |] o]
  end; cbn -[String.append] in Hrun; subst run; cbn -[String.append];
    split; try discriminate.
  - intros _. exists (EOpen output_file :: o).
    cbn -[String.append]. now rewrite <- app_assoc.
  - intros e0 [= <-]. exists (EOpen output_file :: o). reflexivity.
Qed.

Lemma generate_report_ending_witness :
  (exists o,
      snd (generate_report demo 3 ["corp"] "github_org_report.csv" "secret" [])
      = o ++ [EClose "github_org_report.csv";
              EPrint "Report generated successfully: github_org_report.csv"])
  /\ (exists o,
      snd (generate_report (stateless garbled_server) 3 ["garbled"]
             "github_org_report.csv" "secret" [])
      = o ++ [EClose "github_org_report.csv"]).
Proof.
  split.
  - apply (proj1 (generate_report_ending demo 3 ["corp"]
                    "github_org_report.csv" "secret" [])).
    reflexivity.
  - apply (proj2 (generate_report_ending (stateless garbled_server) 3
                    ["garbled"] "github_org_report.csv" "secret" [])
             ValueError).
    reflexivity.
Defined.

(** X20: a run that is given organisations uses them as they are: the
    membership listing is requested at no point of the run, whatever the
    remote side answers. *)
Theorem generate_report_explicit_list_no_listing (net : oracle) (fuel : nat)
    (org_names : list string) (output_file token : string) (t : trace) :
  org_names <> [] ->
  Forall (fun rq => req_url rq <> "https://api.github.com/user/orgs")
         (requests_of
            (snd (generate_report net fuel org_names output_file token t))).
Proof.
  intros Hgiven. apply Forall_requests_of.
  apply (generate_report_emits _ net token); try (intros; exact I).
  - intros rq rs
      [(org & page & _ & ->)|[(org & repo & page & _ & ->)
         |[(user & ->)|(user & ->)]]]; simpl; discriminate.
  - intros Hnone. contradiction.
Qed.

Lemma generate_report_explicit_list_no_listing_witness :
  Forall (fun rq => req_url rq <> "https://api.github.com/user/orgs")
         (requests_of
            (snd (generate_report demo 3 ["acme"; "broken"]
                    "github_org_report.csv" "secret" []))).
Proof.
  apply (generate_report_explicit_list_no_listing demo 3 ["acme"; "broken"]
           "github_org_report.csv" "secret" []).
  discriminate.
Defined.

Lemma listed_collaborators_failure (server : request -> response) (fuel : nat)
    (token org_name repo_name : string) :
  status_code (server (collaborators_request org_name repo_name token 1)) <> 200 ->
  is_json (resp_json (server (collaborators_request org_name repo_name token 1))) ->
  (0 < fuel)%nat ->
  listed_collaborators server fuel token org_name repo_name = Ok [].
Proof.
  intros Hstatus Hjson Hfuel.
  unfold listed_collaborators, get_collaborators_for_repo.
  rewrite get_collaborators_for_repo_loop_paginate.
  now rewrite (paginate_run (stateless server) _ as_collaborators _ [] []
                 (server (collaborators_request org_name repo_name token 1))
                 (List.Forall2_nil _) (or_introl (conj Hstatus Hjson))
                 fuel [] 1 [] eq_refl Hfuel).
Qed.

(** X21: the failure of a collaborator listing is scoped to its
    repository.  On a server that answers each request the same way
    throughout, when the first page of the collaborators of one
    repository of an organisation is answered with a status other than
    200 and a body that is JSON, the run over that organisation succeeds
    and the file holds the rows of the repositories before it and of
    those after it, and none for it. *)
Theorem failure_scoped_to_repository (server : request -> response)
    (fuel : nat) (token output_file : string) (t : trace) (org_name : string)
    (before after : list repository) (failing : repository) :
  listed_repos server fuel token org_name = Ok (before ++ failing :: after) ->
  status_code
    (server (collaborators_request org_name (repo_name failing) token 1))
  <> 200 ->
  is_json
    (resp_json
       (server (collaborators_request org_name (repo_name failing) token 1))) ->
  (0 < fuel)%nat ->
  Forall (repo_enumerable server fuel token org_name) (before ++ after) ->
  fst (generate_report (stateless server) fuel [org_name] output_file token t)
  = Ok tt
  /\ file_rows
       (t ++ snd (generate_report (stateless server) fuel [org_name]
                    output_file token t))
     = header_row
       :: flat_map (repo_rows server fuel token org_name) before
          ++ flat_map (repo_rows server fuel token org_name) after.
Proof.
  intros Hlisted Hstatus Hjson Hfuel Hothers.
  pose proof (listed_collaborators_failure server fuel token org_name
                (repo_name failing) Hstatus Hjson Hfuel) as Hnone.
  apply Forall_app in Hothers. destruct Hothers as [Hbefore Hafter].
  destruct (generate_report_stateless server fuel token [org_name]
              output_file t) as [Hok Hrows].
  { discriminate. }
  { repeat constructor. exists (before ++ failing :: after).
    split; [exact Hlisted|]. apply Forall_app. split; [exact Hbefore|].
    constructor; [|exact Hafter]. exists []. split; [exact Hnone|constructor]. }
  split; [exact Hok|]. rewrite Hrows.
  cbn [resolved_org_names is_empty report_rows flat_map].
  unfold org_rows. rewrite Hlisted. cbn [value].
  rewrite app_nil_r, flat_map_app. cbn [flat_map].
  unfold repo_rows at 2. rewrite Hnone. reflexivity.
Qed.

Lemma failure_scoped_to_repository_witness :
  fst (generate_report (stateless mixed_server) 3 ["mixed"]
         "github_org_report.csv" "secret" []) = Ok tt
  /\ file_rows
       ([] ++ snd (generate_report (stateless mixed_server) 3 ["mixed"]
                     "github_org_report.csv" "secret" []))
     = [ ["Organization"; "Repo Name"; "User Name"; "Email"; "Permission"];
         ["mixed"; "first"; "kim"; "kim@example.com"; "Write"];
         ["mixed"; "last"; "lee"; "Not available"; "Read"] ].
Proof.
  apply (failure_scoped_to_repository mixed_server 3 "secret"
           "github_org_report.csv" [] "mixed" [repo "first"] [repo "last"]
           (repo "hidden")).
  - reflexivity.
  - discriminate.
  - exact I.
  - lia.
  - repeat constructor.
    + exists [member "kim" ["push"]]. split; [reflexivity|].
      repeat constructor. exists "kim@example.com". reflexivity.
    + exists [member "lee" ["pull"]]. split; [reflexivity|].
      repeat constructor. exists "Not available". reflexivity.
Defined.
(** ** main *)

(** X22: the credential is the [--token] argument when it is given and
    not empty; otherwise the environment variable GITHUB_TOKEN when it is
    set and not empty; otherwise the line typed at the prompt, whatever
    it is.  The prompt is shown in the last case only, before anything
    else; in every case the run is that of [generate_report] with that
    credential, the given output file (github_org_report.csv by default)
    and the given organisations. *)
Theorem main_credential_order (net : oracle) (fuel : nat) (args : arguments)
    (environ : gmap string string) (typed : string) (t : trace) :
  let output := default "github_org_report.csv" (arg_output args) in
  let organizations := default [] (arg_organizations args) in
  (forall token,
      arg_token args = Some token -> token <> "" ->
      main net fuel args environ typed t
      = generate_report net fuel organizations output token t)
  /\ (forall token,
      truthy (arg_token args) = false ->
      environ !! "GITHUB_TOKEN" = Some token -> token <> "" ->
      main net fuel args environ typed t
      = generate_report net fuel organizations output token t)
  /\ (truthy (arg_token args) = false ->
      truthy (environ !! "GITHUB_TOKEN") = false ->
      main net fuel args environ typed t
      = (fst (generate_report net fuel organizations output typed
                (t ++ [EPrint "Please enter your GitHub Personal Access Token: "])),
         EPrint "Please enter your GitHub Personal Access Token: "
         :: snd (generate_report net fuel organizations output typed
                   (t ++ [EPrint "Please enter your GitHub Personal Access Token: "])))).
Proof.
  intros output organizations. unfold main. fold output. fold organizations.
  assert (Hdirect : forall token,
             (ret token : M string) t = (Ok token, []) ->
             bind (ret token)
               (fun token => generate_report net fuel organizations output token) t
             = generate_report net fuel organizations output token t).
  { intros token _. unfold bind, ret. rewrite app_nil_r.
    destruct (generate_report _ _ _ _ _ _) as [r o]. reflexivity. }
  split; [|split].
  - intros token Hflag Hne. rewrite Hflag. unfold or_else.
    destruct token as [|c s]; [congruence|]. cbn [truthy negb default].
    now apply Hdirect.
  - intros token Hflag Henv Hne. unfold or_else. rewrite Hflag, Henv.
    destruct token as [|c s]; [congruence|]. cbn [truthy negb default].
    now apply Hdirect.
  - intros Hflag Henv. unfold or_else. rewrite Hflag, Henv. cbn [negb].
    unfold bind, print, emit, ret. cbn -[String.append generate_report].
    destruct (generate_report _ _ _ _ _ _) as [r o]. reflexivity.
Qed.

Lemma main_credential_order_witness :
  main demo 3
    {| arg_token := Some "secret"; arg_output := None;
       arg_organizations := Some ["corp"] |}
    {[ "GITHUB_TOKEN" := "from-env" ]} "typed" []
  = generate_report demo 3 ["corp"] "github_org_report.csv" "secret" []
  /\ main demo 3
       {| arg_token := Some ""; arg_output := Some "out.csv";
          arg_organizations := None |}
       {[ "GITHUB_TOKEN" := "from-env" ]} "typed" []
     = generate_report demo 3 [] "out.csv" "from-env" []
  /\ requests_of
       (snd (main demo 3
               {| arg_token := None; arg_output := None;
                  arg_organizations := Some ["broken"] |}
               {[ "GITHUB_TOKEN" := "" ]} "" []))
     = [repos_request "broken" "" 1].
Proof.
  split; [|split].
  - apply (proj1 (main_credential_order demo 3
                    {| arg_token := Some "secret"; arg_output := None;
                       arg_organizations := Some ["corp"] |}
                    {[ "GITHUB_TOKEN" := "from-env" ]} "typed" []) "secret").
    + reflexivity.
    + discriminate.
  - apply (proj1 (proj2 (main_credential_order demo 3
                    {| arg_token := Some ""; arg_output := Some "out.csv";
                       arg_organizations := None |}
                    {[ "GITHUB_TOKEN" := "from-env" ]} "typed" [])) "from-env").
    + reflexivity.
    + reflexivity.
    + discriminate.
  - rewrite (proj2 (proj2 (main_credential_order demo 3
                    {| arg_token := None; arg_output := None;
                       arg_organizations := Some ["broken"] |}
                    {[ "GITHUB_TOKEN" := "" ]} "" []))
               ltac:(reflexivity) ltac:(vm_compute; reflexivity)).
    reflexivity.
Defined.

(** ** The masked-address test *)






